(** * pismoker-js: RTD acquisition, PID control and duty-cycle actuators

    A shallow embedding of the TypeScript sources

      - [src/rtd/max31865.ts]            (module [Max31865])
      - [traeger/triggerSwitchDevice.ts] (modules [Switch])
      - the PID controller               (module [Pid])
      - [src/traeger.ts]                 (module [TraegerCtl])

    A JavaScript [number] is an IEEE-754 binary64 value, which is what
    Rocq's primitive [float] is, so arithmetic, comparisons, [Math.sqrt],
    infinities and NaN are those of the program.  Integers that only go
    through the 32-bit bit operators ([<<], [>>], [|], [&], [~]) are kept
    in [Z] with the wrap-around to int32 written out.  Promises are a
    state-and-error monad over the SPI bus; timers are an explicit queue
    of pending callbacks next to the clock read by [Date.now()]. *)

From Stdlib Require Import ZArith List String Bool Lia Floats.
Import ListNotations.

Set Warnings "-inexact-float".
Set Implicit Arguments.

(** ** JavaScript numbers and buffers *)

Module Js.

Definition number := float.

(** [ToInt32]: reduce modulo 2^32 into [-2^31, 2^31). *)
Definition toInt32 (z : Z) : Z :=
  ((z + 2147483648) mod 4294967296 - 2147483648)%Z.

(** [a << n], [a >> n], [a | b], [a & b], [~a] on int32 operands. *)
Definition shl (a n : Z) : Z := toInt32 (Z.shiftl (toInt32 a) (n mod 32)).
Definition sar (a n : Z) : Z := Z.shiftr (toInt32 a) (n mod 32).
Definition bor (a b : Z) : Z := toInt32 (Z.lor (toInt32 a) (toInt32 b)).
Definition band (a b : Z) : Z := toInt32 (Z.land (toInt32 a) (toInt32 b)).
Definition bnot (a : Z) : Z := toInt32 (Z.lnot (toInt32 a)).

(** An int32 read as a [number] (exact: |z| < 2^53). *)
Definition ofInt (z : Z) : number :=
  if (z <? 0)%Z then PrimFloat.opp (of_uint63 (Uint63.of_Z (- z)))
  else of_uint63 (Uint63.of_Z z).

(** [a >= b] and [a > b]; both are false as soon as one side is NaN. *)
Definition ge (a b : number) : bool := PrimFloat.leb b a.
Definition gt (a b : number) : bool := PrimFloat.ltb b a.

Definition isNegZero (a : number) : bool := is_zero a && get_sign a.

(** [Math.max] and [Math.min] of two arguments: NaN if either is NaN,
    and [+0] counts as larger than [-0]. *)
Definition Math_max (a b : number) : number :=
  if is_nan a || is_nan b then nan
  else if PrimFloat.ltb a b then b
  else if PrimFloat.ltb b a then a
  else if isNegZero a then b else a.

Definition Math_min (a b : number) : number :=
  if is_nan a || is_nan b then nan
  else if PrimFloat.ltb a b then a
  else if PrimFloat.ltb b a then b
  else if isNegZero a then a else b.

Definition Math_abs (a : number) : number := PrimFloat.abs a.
Definition Math_sqrt (a : number) : number := PrimFloat.sqrt a.

(** A [Buffer] is a sequence of octets; [Buffer.from(array)] keeps each
    entry modulo 256 and [Buffer.alloc(n)] is zero-filled. *)
Definition Buffer := list Z.
Definition Buffer_from (l : list Z) : Buffer := map (fun z => (z mod 256)%Z) l.
Definition Buffer_alloc (n : nat) : Buffer := repeat 0%Z n.

(** [buf[i]] for an index inside the buffer. *)
Definition at_ (buf : Buffer) (i : nat) : Z := nth i buf 0%Z.

End Js.

(** ** Promises over the SPI bus *)

Module Async.

Record Error : Type := mkError { message : string }.

Inductive Outcome (A : Type) : Type :=
| Resolved (a : A)
| Rejected (e : Error).
Arguments Resolved {A} a.
Arguments Rejected {A} e.

(** What the outside world can observe of a run: every message handed
    to [SpiDevice.transfer], with what the bus answered, and every
    [setTimeout] wait. *)
Inductive Event : Type :=
| Transfer (sendBuffer : Js.Buffer) (byteLength : nat) (answer : Outcome Js.Buffer)
| Delay (ms : Z).

(** The bus of [spi-device]: one full-duplex exchange either fails with
    an error or fills the receive buffer. *)
Record SpiDevice (B : Type) : Type := mkSpi {
  transfer : Js.Buffer -> B -> Outcome Js.Buffer * B
}.

Record World (B : Type) : Type := mkWorld {
  bus : B;
  trace : list Event
}.

Definition Promise (B A : Type) : Type := World B -> Outcome A * World B.

Definition resolve {B A} (a : A) : Promise B A := fun w => (Resolved a, w).
Definition reject {B A} (e : Error) : Promise B A := fun w => (Rejected e, w).

(** [await p; k]: a rejection skips the continuation. *)
Definition await {B A C} (p : Promise B A) (k : A -> Promise B C) : Promise B C :=
  fun w =>
    match p w with
    | (Resolved a, w') => k a w'
    | (Rejected e, w') => (Rejected e, w')
    end.

(** [this._device.transfer(message, cb)] wrapped in [new Promise]. *)
Definition deviceTransfer {B} (dev : SpiDevice B) (sendBuffer : Js.Buffer)
           (byteLength : nat) : Promise B Js.Buffer :=
  fun w =>
    let (r, b') := transfer dev sendBuffer (bus w) in
    (r, mkWorld b' (trace w ++ [Transfer sendBuffer byteLength r])).

(** [new Promise(resolve => setTimeout(resolve, ms))]. *)
Definition setTimeoutResolve {B} (ms : Z) : Promise B unit :=
  fun w => (Resolved tt, mkWorld (bus w) (trace w ++ [Delay ms])).

End Async.

Declare Scope promise_scope.
Delimit Scope promise_scope with promise.
Notation "x <- p ;; k" := (Async.await p (fun x => k))
  (at level 61, p at next level, right associativity) : promise_scope.
Notation "p ;;; k" := (Async.await p (fun _ => k))
  (at level 61, right associativity) : promise_scope.

(** ** src/rtd/max31865.ts *)

Module Max31865.
Import Async.
Local Open Scope promise_scope.

(** [enum MAX31865ReadRegister] and [enum MAX31865WriteRegister]. *)
Module ReadRegister.
Definition CONFIG : Z := 0x00.
Definition RTDMSBs : Z := 0x01.
Definition RTDLSBs : Z := 0x02.
Definition HighFaultThreshMSB : Z := 0x03.
Definition HighFaultThreshLSB : Z := 0x04.
Definition LowFaultThreshMSB : Z := 0x05.
Definition LowFaultThreshLSB : Z := 0x06.
Definition FaultStatue : Z := 0x07.
End ReadRegister.

Module WriteRegister.
Definition CONFIG : Z := 0x80.
Definition HighFaultThreshMSB : Z := 0x83.
Definition HighFaultThreshLSB : Z := 0x84.
Definition LowFaultThreshMSB : Z := 0x85.
Definition LowFaultThreshLSB : Z := 0x86.
End WriteRegister.

Record MAX31865 (B : Type) : Type := mkMAX31865 {
  _device : SpiDevice B;
  _rNom : Js.number;
  _rRef : Js.number;
  _rtdA : Js.number;
  _rtdB : Js.number;
  _coeffs5thOrder : list Js.number
}.

(** The constructor; the bus opened by [spi.open] is passed in. *)
Definition new {B} (device : SpiDevice B) (rtdNominal refResistor : Js.number)
  : MAX31865 B :=
  {| _device := device;
     _rNom := rtdNominal;
     _rRef := refResistor;
     _rtdA := 3.9083e-3%float;
     _rtdB := (-5.775e-7)%float;
     _coeffs5thOrder :=
       [1.5243e-10; -2.8183e-8; -4.826e-6; 2.5859e-3; 2.2228; -242.02]%float |}.

Section Methods.
Context {B : Type} (this : MAX31865 B).

Definition _delay (ms : Z) : Promise B unit := setTimeoutResolve ms.

Definition _readUint8 (register : Z) : Promise B Z :=
  fun w =>
    match deviceTransfer (_device this) (Js.Buffer_from [register; 0x00%Z]) 2 w with
    | (Rejected err, w') => (Rejected err, w')
    | (Resolved receiveBuffer, w') => (Resolved (Js.at_ receiveBuffer 1), w')
    end.

Definition _readUint16 (register : Z) : Promise B Z :=
  fun w =>
    match deviceTransfer (_device this)
            (Js.Buffer_from [register; 0x00%Z; 0x00%Z]) 3 w with
    | (Rejected err, w') => (Rejected err, w')
    | (Resolved receiveBuffer, w') =>
        let msb := Js.at_ receiveBuffer 1 in
        let lsb := Js.at_ receiveBuffer 2 in
        (Resolved (Js.bor (Js.shl msb 8) lsb), w')
    end.

Definition _writeUint8 (register data : Z) : Promise B unit :=
  let byte := Js.band data 0x08 in
  fun w =>
    match deviceTransfer (_device this) (Js.Buffer_from [register; byte]) 2 w with
    | (Rejected err, w') => (Rejected err, w')
    | (Resolved _, w') => (Resolved tt, w')
    end.

Definition _toggleConfigBit (predicate : bool) (bitLocation : Z) : Promise B unit :=
  readConfig <- _readUint8 ReadRegister.CONFIG ;;
  let readConfig :=
    if predicate then Js.bor readConfig bitLocation
    else Js.band readConfig (Js.bnot bitLocation) in
  _writeUint8 WriteRegister.CONFIG readConfig.

Definition setWireConfig (threeWire : bool) : Promise B unit :=
  _toggleConfigBit threeWire 0x10.
Definition set50Hz (setTo50 : bool) : Promise B unit :=
  _toggleConfigBit setTo50 0x01.
Definition clearFaultStatus : Promise B unit :=
  _toggleConfigBit true 0x02.
Definition setOneShot : Promise B unit :=
  _toggleConfigBit true 0x20.
Definition setAutoConversion (autoConvert : bool) : Promise B unit :=
  _toggleConfigBit autoConvert 0x40.
Definition setBiasVoltage (biasOn : bool) : Promise B unit :=
  _toggleConfigBit biasOn 0x80.

Definition readRTD : Promise B Z :=
  clearFaultStatus ;;;
  setBiasVoltage true ;;;
  _delay 10 ;;;
  setOneShot ;;;
  _delay 65 ;;;
  rawValue <- _readUint16 ReadRegister.RTDMSBs ;;
  let rtd := Js.sar rawValue 1 in
  resolve rtd.

(** The loop [res = cs[0]; for i = 1 .. cs.length-1: res = res * r + cs[i]]. *)
Definition hornerLoop (cs : list Js.number) (r : Js.number) : Js.number :=
  match cs with
  | [] => nan
  | c0 :: rest => fold_left (fun res c => (res * r + c)%float) rest c0
  end.

(** The body of [getTemperature] from [const z1 = -A] on, as a function
    of the resistance [Rt]. *)
Definition temperatureOfResistance (Rt : Js.number) : Js.number :=
  let A := _rtdA this in
  let B' := _rtdB this in
  let R0 := _rNom this in
  let z1 := (- A)%float in
  let z2 := (A * A - 4 * B')%float in
  let z3 := ((4 * B') / R0)%float in
  let z4 := (2 * B')%float in
  let t1 := (z2 + z3 * Rt)%float in
  let t := ((Js.Math_sqrt t1 + z1) / z4)%float in
  if Js.ge t 0%float then t
  else
    let RRt := ((Rt / R0) * 100)%float in
    hornerLoop (_coeffs5thOrder this) RRt.

Definition resistanceOfRaw (raw : Z) : Js.number :=
  ((Js.ofInt raw / 32768) * _rRef this)%float.

Definition getTemperature : Promise B Js.number :=
  raw <- readRTD ;;
  resolve (temperatureOfResistance (resistanceOfRaw raw)).

End Methods.

End Max31865.


(** ** traeger/triggerSwitchDevice.ts *)

Module Switch.
Local Open Scope float_scope.

(** A callback registered with [setTimeout] and not yet run.  The only
    callback the module registers is the closure [fn] of [start]; what it
    captures besides [this] is the argument [stopAfterNext]. *)
Record Timer : Type := mkTimer {
  timerId : Z;
  due : Js.number;
  stopAfterNext : option bool
}.

(** The part of the JavaScript runtime the class talks to: the clock read
    by [Date.now()], the timer queue, and the events given to [emit]. *)
Record Runtime : Type := mkRuntime {
  clock : Js.number;
  timers : list Timer;
  nextTimerId : Z;
  emitted : list string
}.

Record TimedSwitchDevice : Type := mkTimedSwitchDevice {
  _on : bool;
  _toggledTime : Js.number;
  _started : bool;
  _interruptInterval : Js.number;
  _toggleCallbackID : option Z;
  _onCycleTime : Js.number;
  _offCycleTime : Js.number
}.

Definition State : Type := (TimedSwitchDevice * Runtime)%type.

Definition Date_now (rt : Runtime) : Js.number := clock rt.

Definition emit (name : string) (rt : Runtime) : Runtime :=
  mkRuntime (clock rt) (timers rt) (nextTimerId rt) (emitted rt ++ [name]).

(** The delay Node's [setTimeout] works with: the one asked for when it
    is from 1 to [TIMEOUT_MAX = 2^31 - 1], and 1 ms for any other (larger,
    smaller than 1, or NaN). *)
Definition TIMEOUT_MAX : Js.number := 2147483647.

Definition timeoutDelay (ms : Js.number) : Js.number :=
  if (1 <=? ms) && (ms <=? TIMEOUT_MAX) then ms else 1.

(** [setTimeout(fn, ms)]: a fresh, non-zero handle. *)
Definition setTimeout (captured : option bool) (ms : Js.number) (rt : Runtime)
  : Z * Runtime :=
  (nextTimerId rt,
   mkRuntime (clock rt)
             (timers rt ++
              [mkTimer (nextTimerId rt) (clock rt + timeoutDelay ms) captured])
             (nextTimerId rt + 1)%Z
             (emitted rt)).

(** [clearTimeout(id)]: nothing happens if the timer has already run. *)
Definition clearTimeout (id : Z) (rt : Runtime) : Runtime :=
  mkRuntime (clock rt)
            (filter (fun t => negb (timerId t =? id)%Z) (timers rt))
            (nextTimerId rt)
            (emitted rt).

Definition isOn (d : TimedSwitchDevice) : bool := _on d.
Definition onCycleTime (d : TimedSwitchDevice) : Js.number := _onCycleTime d.
Definition offCycleTime (d : TimedSwitchDevice) : Js.number := _offCycleTime d.

(** [new TimedSwitchDevice(onCycleTime, offCycleTime, loopInterval = 500)]. *)
Definition new (onCycleTime offCycleTime : Js.number) (loopInterval : option Js.number)
  : TimedSwitchDevice :=
  {| _onCycleTime := onCycleTime;
     _offCycleTime := offCycleTime;
     _on := false;
     _toggledTime := 0;
     _toggleCallbackID := None;
     _started := false;
     _interruptInterval := match loopInterval with Some i => i | None => 500 end |}.

Definition set_on (v : bool) (d : TimedSwitchDevice) : TimedSwitchDevice :=
  mkTimedSwitchDevice v (_toggledTime d) (_started d) (_interruptInterval d)
                      (_toggleCallbackID d) (_onCycleTime d) (_offCycleTime d).
Definition set_toggledTime (v : Js.number) (d : TimedSwitchDevice) : TimedSwitchDevice :=
  mkTimedSwitchDevice (_on d) v (_started d) (_interruptInterval d)
                      (_toggleCallbackID d) (_onCycleTime d) (_offCycleTime d).
Definition set_started (v : bool) (d : TimedSwitchDevice) : TimedSwitchDevice :=
  mkTimedSwitchDevice (_on d) (_toggledTime d) v (_interruptInterval d)
                      (_toggleCallbackID d) (_onCycleTime d) (_offCycleTime d).
Definition set_toggleCallbackID (v : option Z) (d : TimedSwitchDevice)
  : TimedSwitchDevice :=
  mkTimedSwitchDevice (_on d) (_toggledTime d) (_started d) (_interruptInterval d)
                      v (_onCycleTime d) (_offCycleTime d).
Definition set_onCycleTime (v : Js.number) (d : TimedSwitchDevice) : TimedSwitchDevice :=
  mkTimedSwitchDevice (_on d) (_toggledTime d) (_started d) (_interruptInterval d)
                      (_toggleCallbackID d) v (_offCycleTime d).
Definition set_offCycleTime (v : Js.number) (d : TimedSwitchDevice) : TimedSwitchDevice :=
  mkTimedSwitchDevice (_on d) (_toggledTime d) (_started d) (_interruptInterval d)
                      (_toggleCallbackID d) (_onCycleTime d) v.

Definition _setToggledTime (s : State) : State :=
  let (d, rt) := s in (set_toggledTime (Date_now rt) d, rt).

(** [stop()]: a handle is truthy unless it is [null] or [0]. *)
Definition stop (s : State) : State :=
  let (d, rt) := s in
  let d := set_started false d in
  match _toggleCallbackID d with
  | Some id => if (id =? 0)%Z then (d, rt) else (d, clearTimeout id rt)
  | None => (d, rt)
  end.

(** [start(stopAfterNext?)]: the callback itself is [fn] below; here it is
    only put in the queue. *)
Definition start (stopAfterNext : option bool) (s : State) : State :=
  let (d, rt) := s in
  if negb (_started d) then
    let d := set_started true d in
    let interruptMs := _interruptInterval d in
    let (id, rt) := setTimeout stopAfterNext interruptMs rt in
    (set_toggleCallbackID (Some id) d, rt)
  else (d, rt).

Definition _resetCallbackLoop (s : State) : State := start None (stop s).

Definition setOnCycleTime (time : Js.number) (s : State) : State :=
  let (d, rt) := s in
  _resetCallbackLoop (set_onCycleTime time d, rt).

Definition setOffCycleTime (time : Js.number) (s : State) : State :=
  let (d, rt) := s in
  _resetCallbackLoop (set_offCycleTime time d, rt).

Definition turnOn (s : State) : State :=
  let (d, rt) := s in
  if negb (_on d) then
    _resetCallbackLoop (_setToggledTime (set_on true d, emit "on" rt))
  else s.

Definition turnOff (s : State) : State :=
  let (d, rt) := s in
  if _on d then
    _resetCallbackLoop (_setToggledTime (set_on false d, emit "off" rt))
  else s.

(** [!!stopAfterNext] *)
Definition truthy (b : option bool) : bool :=
  match b with Some true => true | _ => false end.

(** The timer callback [fn] created by [start(stopAfterNext)]. *)
Definition fn (stopAfterNext : option bool) (s : State) : State :=
  let s :=
    if _on (fst s) then
      if Js.gt (Date_now (snd s) - _toggledTime (fst s)) (_onCycleTime (fst s))
      then turnOff s else s
    else
      if Js.gt (Date_now (snd s) - _toggledTime (fst s)) (_offCycleTime (fst s))
      then turnOn s else s in
  if truthy stopAfterNext then start None s else s.

(** *** The event loop

    Timers run one at a time, earliest first, with the clock standing at
    the time the timer was due (or where it already is, if that is later). *)
Fixpoint earliest (ts : list Timer) : option Timer :=
  match ts with
  | [] => None
  | t :: rest =>
      match earliest rest with
      | Some t' => if due t' <? due t then Some t' else Some t
      | None => Some t
      end
  end.

Definition setClock (now : Js.number) (rt : Runtime) : Runtime :=
  mkRuntime now (timers rt) (nextTimerId rt) (emitted rt).

(** Run the next pending timer if it is due by [t]. *)
Definition fireNext (t : Js.number) (s : State) : option State :=
  match earliest (timers (snd s)) with
  | Some tm =>
      if due tm <=? t then
        let at_ := if due tm <? clock (snd s) then clock (snd s) else due tm in
        Some (fn (stopAfterNext tm)
                 (fst s, clearTimeout (timerId tm) (setClock at_ (snd s))))
      else None
  | None => None
  end.

(** Let time pass until [t], running every timer that falls due; [None]
    when [fuel] callbacks were not enough to get there. *)
Fixpoint runUntil (fuel : nat) (t : Js.number) (s : State) : option State :=
  match fireNext t s with
  | None => Some (fst s, setClock t (snd s))
  | Some s' =>
      match fuel with
      | O => None
      | S fuel' => runUntil fuel' t s'
      end
  end.

(** *** LatchedSwitchDevice *)

Record LatchedSwitchDevice : Type := mkLatched {
  _timedDevice : TimedSwitchDevice
}.

Definition LState : Type := (LatchedSwitchDevice * Runtime)%type.

Definition newLatched (cycleTime : Js.number) : LatchedSwitchDevice :=
  {| _timedDevice := new cycleTime infinity None |}.

Definition latchedIsOn (l : LatchedSwitchDevice) : bool := isOn (_timedDevice l).
Definition cycleTime (l : LatchedSwitchDevice) : Js.number :=
  onCycleTime (_timedDevice l).

(** Every method forwards to the wrapped device. *)
Definition forward (m : State -> State) (s : LState) : LState :=
  let (d, rt) := m (_timedDevice (fst s), snd s) in (mkLatched d, rt).

Definition latchedSetCycleTime (ms : Js.number) : LState -> LState :=
  forward (setOnCycleTime ms).
Definition latchedTurnOn : LState -> LState := forward turnOn.
Definition latchedTurnOff : LState -> LState := forward turnOff.
Definition latchedStart (stopAfterNext : option bool) : LState -> LState :=
  forward (start stopAfterNext).
Definition latchedStop : LState -> LState := forward stop.

(** Time passing for a latched device is time passing for the device it
    wraps: the timers belong to the wrapped device. *)
Definition latchedRunUntil (fuel : nat) (t : Js.number) (s : LState) : option LState :=
  match runUntil fuel t (_timedDevice (fst s), snd s) with
  | Some (d, rt) => Some (mkLatched d, rt)
  | None => None
  end.

End Switch.

(** ** The PID controller *)

Module Pid.
Local Open Scope float_scope.

Definition clamp (v min max : Js.number) : Js.number :=
  Js.Math_min (Js.Math_max v min) max.

Record PIDController : Type := mkPID {
  _Kp : Js.number;
  _Ki : Js.number;
  _Kd : Js.number;
  _lastTime : Js.number;
  _sumT : Js.number;
  _tempSetPoint : Js.number;
  _maxIntegrator : Js.number
}.

(** [new PIDController(pb, ti, td)] *)
Definition new (pb ti td : Js.number) : PIDController :=
  let Kp := -1.0 / pb in
  let Ki := Kp / ti in
  let Kd := Kp * td in
  {| _Kp := Kp;
     _Ki := Ki;
     _Kd := Kd;
     _maxIntegrator := Js.Math_abs (0.5 / Ki);
     _lastTime := 0;
     _tempSetPoint := 0;
     _sumT := 0 |}.

Definition setDesiredTemp (T : Js.number) (c : PIDController) : PIDController :=
  mkPID (_Kp c) (_Ki c) (_Kd c) 0 0 T (_maxIntegrator c).

Definition _calculateIntegratorResponse (error dt : Js.number) (c : PIDController)
  : Js.number * PIDController :=
  let maxI := _maxIntegrator c in
  let dI := error * dt in
  let I := clamp (_sumT c + dI) (- maxI) maxI in
  (_Ki c * I,
   mkPID (_Kp c) (_Ki c) (_Kd c) (_lastTime c) I (_tempSetPoint c) (_maxIntegrator c)).

Definition _calculateDerivativeResponse (error dt : Js.number) (c : PIDController)
  : Js.number :=
  let dT := error / dt in
  _Kd c * dT.

Definition _calculateProportionalResponse (error : Js.number) (c : PIDController)
  : Js.number :=
  _Kp c * error + 0.5.

(** What the optional callback [cb] is handed. *)
Record Diagnostics : Type := mkDiagnostics {
  error : Js.number;
  target : Js.number;
  current : Js.number;
  P : Js.number;
  I : Js.number;
  D : Js.number
}.

(** [getControllerResponse(T, cb)] with [Date.now()] returning [now]:
    the response [u], the data for [cb], and the controller afterwards. *)
Definition getControllerResponse (now T : Js.number) (c : PIDController)
  : Js.number * Diagnostics * PIDController :=
  let currentTime := now in
  let dt := currentTime - _lastTime c in
  let error := T - _tempSetPoint c in
  let P := _calculateProportionalResponse error c in
  let (I, c) := _calculateIntegratorResponse error dt c in
  let D := _calculateDerivativeResponse error dt c in
  let u := P + I + D in
  let c' := mkPID (_Kp c) (_Ki c) (_Kd c) currentTime (_sumT c)
                  (_tempSetPoint c) (_maxIntegrator c) in
  (u, mkDiagnostics error (_tempSetPoint c') T P I D, c').

(** A caller's view of the controller: the two public methods. *)
Inductive Call : Type :=
| CallSetDesiredTemp (T : Js.number)
| CallGetControllerResponse (now T : Js.number).

Definition call (c : PIDController) (op : Call) : PIDController :=
  match op with
  | CallSetDesiredTemp T => setDesiredTemp T c
  | CallGetControllerResponse now T => snd (getControllerResponse now T c)
  end.

Definition calls (ops : list Call) (c : PIDController) : PIDController :=
  fold_left call ops c.

(** [-maxIntegrator <= integratorSum <= maxIntegrator] *)
Definition withinBound (c : PIDController) : bool :=
  (- _maxIntegrator c <=? _sumT c) && (_sumT c <=? _maxIntegrator c).

End Pid.


(** ** src/traeger.ts *)

Module TraegerCtl.
Local Open Scope float_scope.

Inductive TraegerState : Type :=
| Off | Shutdown | Start | Smoke | Ignite | Hold.

Definition TraegerState_eqb (a b : TraegerState) : bool :=
  match a, b with
  | Off, Off | Shutdown, Shutdown | Start, Start
  | Smoke, Smoke | Ignite, Ignite | Hold, Hold => true
  | _, _ => false
  end.

Record RelayPins : Type := mkRelayPins {
  auger : Js.number;
  fan : Js.number;
  igniter : Js.number
}.

Record TraegerConfig : Type := mkTraegerConfig {
  relayPins : RelayPins;
  pMode : Js.number;
  cycleTime : Js.number
}.

(** The object built by the [typestate] package, as far as the
    constructor uses it: the current state and the transitions
    registered with [fsm.from(a).to(b)]. *)
Record FiniteStateMachine : Type := mkFsm {
  currentState : TraegerState;
  transitions : list (TraegerState * TraegerState)
}.

Definition newFsm (startState : TraegerState) : FiniteStateMachine :=
  mkFsm startState [].

Definition from_to (a b : TraegerState) (fsm : FiniteStateMachine)
  : FiniteStateMachine :=
  mkFsm (currentState fsm) (transitions fsm ++ [(a, b)]).

Definition canGo (fsm : FiniteStateMachine) (b : TraegerState) : bool :=
  existsb (fun p => TraegerState_eqb (fst p) (currentState fsm)
                    && TraegerState_eqb (snd p) b)
          (transitions fsm).

Record Traeger : Type := mkTraeger {
  _relays : RelayPins;
  _fsm : FiniteStateMachine;
  _fan : Switch.LatchedSwitchDevice;
  _igniter : Switch.LatchedSwitchDevice;
  _auger : Switch.TimedSwitchDevice;
  _pMode : Js.number;
  _pidCycleTime : Js.number
}.

(** [new Traeger(config)] *)
Definition new (config : TraegerConfig) : Traeger :=
  let fsm := newFsm Off in
  let fsm := from_to Off Start fsm in
  let fsm := from_to Start Hold fsm in
  let fsm := from_to Start Smoke fsm in
  {| _relays := relayPins config;
     _pidCycleTime := cycleTime config;
     _auger := Switch.new (15 * 1000) (45 * 1000) None;
     _fan := Switch.newLatched (10 * 60 * 1000);
     _igniter := Switch.newLatched (20 * 60 * 1000);
     _pMode := pMode config;
     _fsm := fsm |}.

(** How a call ends: it returns, or it throws. *)
Inductive Completion : Type :=
| Returned
| Thrown (errorMessage : string).

(** [public setState(state: TraegerState) {}] *)
Definition setState (state : TraegerState) (t : Traeger) : Completion * Traeger :=
  (Returned, t).

(** The transitions the controller is required to accept, as the design
    lists them (any state other than [Off] counts as active). *)
Definition specAllowedTransition (a b : TraegerState) : bool :=
  match a, b with
  | Off, Start | Start, Smoke | Start, Hold | Smoke, Ignite
  | Ignite, Hold | Shutdown, Off => true
  | (Start | Smoke | Ignite | Hold | Shutdown), Shutdown => true
  | _, _ => false
  end.

End TraegerCtl.

(** ** A simulated MAX31865 for running the driver

    A register file behind the bus: reads of the configuration, RTD and
    fault-status registers answer from the register file, a write to the
    configuration register stores the data byte, and the bus stops working
    after [healthy] exchanges when [healthy] is a number. *)

Module SimChip.
Import Async.

Record Chip : Type := mkChip {
  config : Z;
  rtd : Z;
  faultStatus : Z;
  healthy : option nat
}.

Definition EIO : Error := mkError "EIO".

Definition answer (send : Js.Buffer) (c : Chip) : Js.Buffer * Chip :=
  match send with
  | [0x00; _] => ([0; config c], c)
  | [0x01; _; _] => ([0; Z.shiftr (rtd c) 8 mod 256; rtd c mod 256], c)
  | [0x07; _] => ([0; faultStatus c], c)
  | [0x80; data] => ([0; 0], mkChip data (rtd c) (faultStatus c) (healthy c))
  | _ => (map (fun _ => 0) send, c)
  end%Z.

Definition chipTransfer (send : Js.Buffer) (c : Chip) : Outcome Js.Buffer * Chip :=
  match healthy c with
  | Some O => (Rejected EIO, c)
  | Some (S n) =>
      let (rx, c') := answer send (mkChip (config c) (rtd c) (faultStatus c) (Some n)) in
      (Resolved rx, c')
  | None =>
      let (rx, c') := answer send c in (Resolved rx, c')
  end.

Definition spi : SpiDevice Chip := mkSpi chipTransfer.

Definition boot (c : Chip) : World Chip := mkWorld c [].

(** A PT100 on a 430 ohm reference resistor. *)
Definition pt100 : Max31865.MAX31865 Chip := Max31865.new spi 100%float 430%float.

End SimChip.


(** ** Vocabulary for the statements

    Nothing below is program text: these are the observations and the
    reference formulas the theorems are stated with. *)

Module Max31865Obs.
Import Async Max31865.
Local Open Scope float_scope.

(** A transfer the bus answered with an error. *)
Definition failed (ev : Event) : bool :=
  match ev with Transfer _ _ (Rejected _) => true | _ => false end.

(** A transfer whose first byte, the register address, is [register]. *)
Definition addresses (register : Z) (ev : Event) : bool :=
  match ev with Transfer (a :: _) _ _ => (a =? register)%Z | _ => false end.

(** The octet that [_writeUint8(register, data)] puts after the address. *)
Definition sentByte (data : Z) : Z := (Js.band data 0x08 mod 256)%Z.

(** The configuration byte after the bit is set or cleared. *)
Definition toggled (predicate : bool) (bitLocation readConfig : Z) : Z :=
  if predicate then Js.bor readConfig bitLocation
  else Js.band readConfig (Js.bnot bitLocation).

Definition unitOutcome (r : Outcome Js.Buffer) : Outcome unit :=
  match r with Resolved _ => Resolved tt | Rejected e => Rejected e end.

Definition octet (z : Z) : Prop := (0 <= z < 256)%Z.

(** The closed form of the design for T >= 0,
    [T = (sqrt(A^2 - 4B + 4B*R/R0) - A) / (2B)], in binary64. *)
Definition closedFormQuadratic (A B R0 R : Js.number) : Js.number :=
  (sqrt (A * A - 4 * B + 4 * B / R0 * R) - A) / (2 * B).

(** A 5th-order polynomial in Horner form. *)
Definition horner5 (c0 c1 c2 c3 c4 c5 r : Js.number) : Js.number :=
  ((((c0 * r + c1) * r + c2) * r + c3) * r + c4) * r + c5.

Definition polynomialBranch (r : Js.number) : Js.number :=
  horner5 1.5243e-10 (-2.8183e-8) (-4.826e-6) 2.5859e-3 2.2228 (-242.02) r.

(** The Callendar-Van Dusen relation quoted at the top of max31865.ts,
    [R(T) = R0 * (1 + a*T + b*T^2 + c*(T-100)*T^3)], with the constants of
    the class (c is the commented-out [_rtdC]). *)
Definition callendarVanDusen (R0 T : Js.number) : Js.number :=
  R0 * (1 + 3.9083e-3 * T + -5.775e-7 * (T * T)
        + -4.183e-12 * ((T - 100) * (T * T * T))).

(** Two simulated chips reporting the same resistance; the second has
    fault-status bits set and the fault bit of the RTD LSB register up. *)
Definition chipOk : SimChip.Chip := SimChip.mkChip 0 12240 0 None.
Definition chipFaulted : SimChip.Chip := SimChip.mkChip 0 12241 0x3C None.

End Max31865Obs.

Module SwitchObs.
Import Switch.
Local Open Scope float_scope.

(** Some instant, in milliseconds since the epoch, and a runtime with no
    timer pending at that instant. *)
Definition t0 : Js.number := 1700000000000.
Definition boot : Runtime := mkRuntime t0 [] 1 [].

(** The timers left after [stop()]. *)
Definition pendingAfterStop (s : State) : list Timer :=
  match _toggleCallbackID (fst s) with
  | Some id => if (id =? 0)%Z then timers (snd s)
               else filter (fun t => negb (timerId t =? id)%Z) (timers (snd s))
  | None => timers (snd s)
  end.

(** [s'] is [s] with the timer loop restarted: the old callback is
    cancelled and one new callback is due an interval from now (the
    interval as [setTimeout] takes it). *)
Definition restarted (s s' : State) : Prop :=
  _started (fst s') = true
  /\ _toggleCallbackID (fst s') = Some (nextTimerId (snd s))
  /\ nextTimerId (snd s') = (nextTimerId (snd s) + 1)%Z
  /\ timers (snd s') =
     pendingAfterStop s ++
     [mkTimer (nextTimerId (snd s))
              (clock (snd s) + timeoutDelay (_interruptInterval (fst s))) None].

(** [s'] has the output, the last-toggle time, the polling interval, the
    events emitted so far and the clock of [s]. *)
Definition untouched (s s' : State) : Prop :=
  _on (fst s') = _on (fst s)
  /\ _toggledTime (fst s') = _toggledTime (fst s)
  /\ _interruptInterval (fst s') = _interruptInterval (fst s)
  /\ emitted (snd s') = emitted (snd s)
  /\ clock (snd s') = clock (snd s).

End SwitchObs.

Module PidObs.
Import Pid.
Local Open Scope float_scope.

(** The sum [integratorSum + error * dt] that a call is about to clamp is
    a number (not NaN); [setDesiredTemp] clamps nothing. *)
Definition numericStep (c : PIDController) (op : Call) : bool :=
  match op with
  | CallSetDesiredTemp _ => true
  | CallGetControllerResponse now T =>
      negb (is_nan (_sumT c + (T - _tempSetPoint c) * (now - _lastTime c)))
  end.

Fixpoint numericRun (ops : list Call) (c : PIDController) : bool :=
  match ops with
  | [] => true
  | op :: rest => numericStep c op && numericRun rest (call c op)
  end.

End PidObs.

Module FloatObs.

(** The order on exponent and mantissa by which two finite binary64
    values of the same sign compare. *)
Definition lex (a b : Z) (x y : positive) : comparison :=
  match (a ?= b)%Z with Eq => (x ?= y)%positive | Lt => Lt | Gt => Gt end.

End FloatObs.

Module SwitchRun.
Import Switch.
Local Open Scope float_scope.

(** The event loop running the earliest pending callback, with the clock
    at the time it was due (or where it already is, if that is later). *)
Definition wake (s : State) : State :=
  match earliest (timers (snd s)) with
  | Some tm =>
      let at_ := if due tm <? clock (snd s) then clock (snd s) else due tm in
      fn (stopAfterNext tm)
         (fst s, clearTimeout (timerId tm) (setClock at_ (snd s)))
  | None => s
  end.

(** What can happen to a device: a call of one of its public methods, a
    pending callback being run, or the clock moving. *)
Inductive Op : Type :=
| OpStart (stopAfterNext : option bool)
| OpStop
| OpTurnOn
| OpTurnOff
| OpSetOnCycleTime (time : Js.number)
| OpSetOffCycleTime (time : Js.number)
| OpWake
| OpClock (now : Js.number).

Definition step (s : State) (op : Op) : State :=
  match op with
  | OpStart stopAfterNext => start stopAfterNext s
  | OpStop => stop s
  | OpTurnOn => turnOn s
  | OpTurnOff => turnOff s
  | OpSetOnCycleTime time => setOnCycleTime time s
  | OpSetOffCycleTime time => setOffCycleTime time s
  | OpWake => wake s
  | OpClock now => (fst s, setClock now (snd s))
  end.

Definition run (ops : list Op) (s : State) : State := fold_left step ops s.

(** A device just constructed, in a runtime with no timer pending. *)
Definition fresh (onCycleTime offCycleTime : Js.number) (loopInterval : option Js.number)
           (now : Js.number) (nextId : Z) : State :=
  (new onCycleTime offCycleTime loopInterval, mkRuntime now [] nextId []).

(** ["on"; "off"; "on"; ...], [n] events long. *)
Definition alternating (n : nat) : list string :=
  map (fun i => if Nat.even i then "on"%string else "off"%string) (seq 0 n).

(** The callback bookkeeping is sound: handles are positive and already
    issued, and a pending callback is the only one, is the one the device
    remembers, and the device counts itself started. *)
Definition loopSound (s : State) : Prop :=
  (0 < nextTimerId (snd s))%Z
  /\ match _toggleCallbackID (fst s) with
     | Some id => (0 < id < nextTimerId (snd s))%Z
     | None => True
     end
  /\ (timers (snd s) = []
      \/ exists tm, timers (snd s) = [tm]
                    /\ _toggleCallbackID (fst s) = Some (timerId tm)
                    /\ _started (fst s) = true).

(** The events emitted so far alternate, starting with ["on"], and the
    output is on exactly after an odd number of them. *)
Definition eventsSound (s : State) : Prop :=
  emitted (snd s) = alternating (List.length (emitted (snd s)))
  /\ _on (fst s) = Nat.odd (List.length (emitted (snd s))).

(** The methods of a latched device, a pending callback being run, and
    the clock moving. *)
Inductive LatchedOp : Type :=
| LStart (stopAfterNext : option bool)
| LStop
| LTurnOn
| LTurnOff
| LSetCycleTime (ms : Js.number)
| LWake
| LClock (now : Js.number).

Definition latchedStep (s : LState) (op : LatchedOp) : LState :=
  match op with
  | LStart stopAfterNext => latchedStart stopAfterNext s
  | LStop => latchedStop s
  | LTurnOn => latchedTurnOn s
  | LTurnOff => latchedTurnOff s
  | LSetCycleTime ms => latchedSetCycleTime ms s
  | LWake => forward wake s
  | LClock now => (fst s, setClock now (snd s))
  end.

Definition latchedRun (ops : list LatchedOp) (s : LState) : LState :=
  fold_left latchedStep ops s.

Definition isTurnOn (op : LatchedOp) : bool :=
  match op with LTurnOn => true | _ => false end.



End SwitchRun.

Module BusObs.
Import Async Max31865 Max31865Obs.
Local Open Scope Z_scope.

Definition isOctet (z : Z) : bool := (0 <=? z) && (z <? 256).

(** A message as the driver may send it: as many octets as its
    [byteLength] says, two or three of them, the first one the address of
    the configuration register for reading (0x00) or for writing (0x80) or
    of the RTD MSB register (0x01); and a wait of 10 or 65 ms. *)
Definition driverEvent (ev : Event) : bool :=
  match ev with
  | Transfer send n _ =>
      (List.length send =? n)%nat
      && ((n =? 2)%nat || (n =? 3)%nat)
      && forallb isOctet send
      && (addresses ReadRegister.CONFIG ev
          || addresses WriteRegister.CONFIG ev
          || addresses ReadRegister.RTDMSBs ev)
  | Delay ms => (ms =? 10) || (ms =? 65)
  end.

(** Every receive buffer the bus hands back holds octets. *)
Definition octetBus {B} (spi : SpiDevice B) : Prop :=
  forall send b rx b', transfer spi send b = (Resolved rx, b') -> Forall octet rx.

(** A bus that answers every exchange with the same three octets. *)
Definition steadyBus : SpiDevice unit :=
  mkSpi (fun _ b => (Resolved [0; 0x2F; 0xD0], b)).

End BusObs.

(** ** src/traeger/traegerRTDevice.ts *)

Module RtDevice.
Import Async.
Local Open Scope float_scope.

Inductive PlatinumResistorType : Type := PT100 | PT1000.

(** The value of the R_Ref resistor. *)
Definition PlatinumRefResistorValue (type : PlatinumResistorType) : Js.number :=
  match type with PT100 => 430.0 | PT1000 => 4300.0 end.

(** The 'nominal' 0-degrees-C resistance of the sensor. *)
Definition PlatinumNominalResistanceValue (type : PlatinumResistorType) : Js.number :=
  match type with PT100 => 100.0 | PT1000 => 1000.0 end.

Record TraegerRTDevice (B : Type) : Type := mkTraegerRTDevice {
  _device : Max31865.MAX31865 B
}.
Arguments mkTraegerRTDevice {B} _.
Arguments _device {B} _.

(** [new TraegerRTDevice(r0, rRef)], on the bus [spi.open] gives. *)
Definition new {B} (spi : SpiDevice B) (r0 rRef : Js.number) : TraegerRTDevice B :=
  {| _device := Max31865.new spi r0 rRef |}.

Definition fromPlatinumResistorType {B} (spi : SpiDevice B)
           (type : PlatinumResistorType) : TraegerRTDevice B :=
  let r0 := PlatinumNominalResistanceValue type in
  let rRef := PlatinumRefResistorValue type in
  new spi r0 rRef.

Definition getTempCelsius {B} (this : TraegerRTDevice B) : Promise B Js.number :=
  Max31865.getTemperature (_device this).

End RtDevice.

Module DecodeObs.
Import Async Max31865.
Local Open Scope float_scope.

(** [f a && f (a+1) && ... && f (a+n-1)] *)
Fixpoint allFrom (f : Z -> bool) (a : Z) (n : nat) : bool :=
  match n with
  | O => true
  | S k => f a && allFrom f (a + 1) k
  end.

(** The temperature a platinum sensor of the given type reports for a
    raw code. *)
Definition celsiusOfRaw (type : RtDevice.PlatinumResistorType) (raw : Z) : Js.number :=
  let this := RtDevice._device (RtDevice.fromPlatinumResistorType SimChip.spi type) in
  temperatureOfResistance this (resistanceOfRaw this raw).

(** The closed form for T >= 0 at the resistance of a raw code. *)
Definition closedFormOfRaw (type : RtDevice.PlatinumResistorType) (raw : Z) : Js.number :=
  let this := RtDevice._device (RtDevice.fromPlatinumResistorType SimChip.spi type) in
  Max31865Obs.closedFormQuadratic 3.9083e-3 (-5.775e-7)
    (RtDevice.PlatinumNominalResistanceValue type) (resistanceOfRaw this raw).

(** What is checked of one raw code: the temperature is a number from
    -242.02 up to 988.8, it is below the next code's temperature, it is
    negative exactly up to code 7620, and exactly up to that code the
    closed form is not [>= 0]. *)
Definition rawCodeOk (type : RtDevice.PlatinumResistorType) (raw : Z) : bool :=
  let t := celsiusOfRaw type raw in
  (-242.02 <=? t) && (t <? 988.8)
  && ((raw =? 32767)%Z || (t <? celsiusOfRaw type (raw + 1)))
  && Bool.eqb (raw <=? 7620)%Z (t <? 0)
  && Bool.eqb (raw <=? 7620)%Z (negb (0 <=? closedFormOfRaw type raw)).

(** [R(T) = R0 * (1 + a*T + b*T^2)], the relation of the header comment
    of max31865.ts for 0 <= T <= 850, where c = 0. *)
Definition quadraticResistance (R0 T : Js.number) : Js.number :=
  R0 * (1 + 3.9083e-3 * T + -5.775e-7 * (T * T)).

Definition roundTripOk (type : RtDevice.PlatinumResistorType) (T : Z) : bool :=
  let this := RtDevice._device (RtDevice.fromPlatinumResistorType SimChip.spi type) in
  let R0 := RtDevice.PlatinumNominalResistanceValue type in
  abs (temperatureOfResistance this (quadraticResistance R0 (Js.ofInt T)) - Js.ofInt T)
  <? 1e-9.

End DecodeObs.

Module FloatClassObs.

(** Not a finite number: NaN or an infinity. *)
Definition nonFinite (x : spec_float) : Prop :=
  match x with
  | S754_nan | S754_infinity _ => True
  | _ => False
  end.

End FloatClassObs.



Module ReadRtdObs.
Import Async Max31865.
Local Open Scope promise_scope.

(** [readRTD] with each of its three configuration steps replaced by a
    toggle that sets no bit at all. *)
Definition readRTDSettingNothing {B} (this : MAX31865 B) : Promise B Z :=
  _toggleConfigBit this true 0x00 ;;;
  _toggleConfigBit this true 0x00 ;;;
  _delay 10 ;;;
  _toggleConfigBit this true 0x00 ;;;
  _delay 65 ;;;
  rawValue <- _readUint16 this ReadRegister.RTDMSBs ;;
  resolve (Js.sar rawValue 1).

(** The chip of the failing run: configuration 0x00, RTD register 0x0002. *)
Definition idleChip : SimChip.Chip := SimChip.mkChip 0x00 0x0002 0 None.

End ReadRtdObs.

Unset Implicit Arguments.

(** * Properties *)

(** ** Binary64 facts used below *)

Module FloatFacts.
Import FloatObs.
Local Open Scope float_scope.

Lemma SFadd_opp prec emax x y :
  SFadd prec emax x (SFopp y) = SFsub prec emax x y.
Proof.
  destruct x as [sx|sx| |sx mx ex], y as [sy|sy| |sy my ey]; cbn;
    try reflexivity;
    destruct sx, sy; reflexivity.
Qed.

Lemma add_opp (x y : float) : x + - y = x - y.
Proof.
  apply Prim2SF_inj.
  rewrite add_spec, sub_spec, opp_spec. apply SFadd_opp.
Qed.

Lemma SFcompare_refl x : x <> S754_nan -> SFcompare x x = Some Eq.
Proof.
  destruct x as [s|s| |s m e]; cbn; intros H; try congruence.
  - destruct s; reflexivity.
  - rewrite Z.compare_refl.
    change (PosDef.Pos.compare_cont Eq m m) with (Pos.compare m m).
    rewrite Pos.compare_refl. destruct s; reflexivity.
Qed.

Lemma SFcompare_antisym x y :
  SFcompare y x = option_map CompOpp (SFcompare x y).
Proof.
  destruct x as [sx|sx| |sx mx ex], y as [sy|sy| |sy my ey]; cbn;
    try reflexivity; try (destruct sx; reflexivity); try (destruct sy; reflexivity);
    try (destruct sx, sy; reflexivity).
  change (PosDef.Pos.compare_cont Eq my mx) with (Pos.compare my mx).
  change (PosDef.Pos.compare_cont Eq mx my) with (Pos.compare mx my).
  rewrite (Z.compare_antisym ex ey), (Pos.compare_antisym mx my).
  destruct sx, sy, (ex ?= ey)%Z, (mx ?= my)%positive; reflexivity.
Qed.

Lemma SFcompare_some x y :
  x <> S754_nan -> y <> S754_nan -> exists c, SFcompare x y = Some c.
Proof.
  destruct x, y; cbn; intros; try congruence; eexists; reflexivity.
Qed.

Lemma is_nan_spec x : is_nan x = false <-> Prim2SF x <> S754_nan.
Proof.
  unfold is_nan. rewrite eqb_spec. unfold SFeqb. split.
  - intros H E. rewrite E in H. discriminate.
  - intros H. rewrite SFcompare_refl by assumption. reflexivity.
Qed.

Lemma leb_refl x : is_nan x = false -> (x <=? x) = true.
Proof.
  rewrite is_nan_spec, leb_spec. unfold SFleb. intros H.
  rewrite SFcompare_refl by assumption. reflexivity.
Qed.

Lemma ltb_false_leb x y :
  is_nan x = false -> is_nan y = false -> (x <? y) = false -> (y <=? x) = true.
Proof.
  rewrite !is_nan_spec, ltb_spec, leb_spec. unfold SFltb, SFleb. intros Hx Hy.
  rewrite (SFcompare_antisym (Prim2SF x) (Prim2SF y)).
  destruct (SFcompare_some _ _ Hx Hy) as [c ->]. destruct c; cbn; congruence.
Qed.

Lemma ltb_leb x y : (x <? y) = true -> (x <=? y) = true.
Proof.
  rewrite ltb_spec, leb_spec. unfold SFltb, SFleb.
  destruct (SFcompare _ _) as [[]|]; congruence.
Qed.

Lemma leb_not_nan x y : (x <=? y) = true -> is_nan x = false /\ is_nan y = false.
Proof.
  rewrite !is_nan_spec, leb_spec. unfold SFleb.
  destruct (Prim2SF x), (Prim2SF y); cbn; intros H; split; congruence.
Qed.

Lemma ltb_not_nan x y : (x <? y) = true -> is_nan x = false /\ is_nan y = false.
Proof. intros H. apply leb_not_nan, ltb_leb, H. Qed.

Lemma ltb_asym x y : (x <? y) = true -> (y <? x) = false.
Proof.
  rewrite !ltb_spec. unfold SFltb.
  rewrite (SFcompare_antisym (Prim2SF x) (Prim2SF y)).
  destruct (SFcompare _ _) as [[]|]; cbn; congruence.
Qed.

Lemma is_nan_opp x : is_nan (- x) = is_nan x.
Proof.
  destruct (is_nan x) eqn:E.
  - apply not_false_iff_true. rewrite is_nan_spec, opp_spec. intros H. apply H.
    apply not_false_iff_true in E. rewrite is_nan_spec in E.
    destruct (Prim2SF x); try reflexivity; exfalso; apply E; discriminate.
  - rewrite is_nan_spec in *. rewrite opp_spec. destruct (Prim2SF x); cbn; congruence.
Qed.

Lemma opp_abs_leb x : is_nan (abs x) = false -> (- abs x <=? abs x) = true.
Proof.
  rewrite is_nan_spec, leb_spec, opp_spec, abs_spec. unfold SFleb.
  destruct (Prim2SF x); cbn; congruence.
Qed.

Lemma opp_leb_zero m :
  (- m <=? m) = true -> (- m <=? 0) = true /\ (0 <=? m) = true.
Proof.
  rewrite !leb_spec, opp_spec. change (Prim2SF 0) with (S754_zero false).
  unfold SFleb. destruct (Prim2SF m) as [[]|[]| |[] ? ?]; cbn; intros H; split; congruence.
Qed.

(** Above [|x|] is above [-|x|] too. *)
Lemma above_abs x v :
  (abs x <? v) = true -> (v <? - abs x) = false /\ (- abs x <? v) = true.
Proof.
  rewrite !ltb_spec, opp_spec, abs_spec. unfold SFltb.
  destruct (Prim2SF x) as [?|?| |? ? ?], (Prim2SF v) as [[]|[]| |[] ? ?];
    cbn; intros H; split; congruence.
Qed.

Lemma abs_ltb_opp_abs x : (abs x <? - abs x) = false.
Proof.
  rewrite ltb_spec, opp_spec, abs_spec. unfold SFltb.
  destruct (Prim2SF x) as [?|?| |? ? ?]; reflexivity.
Qed.

Lemma isNegZero_opp_abs x :
  (- abs x <? abs x) = false -> Js.isNegZero (- abs x) = true \/ is_nan (abs x) = true.
Proof.
  unfold Js.isNegZero, is_zero, get_sign, is_zero, is_nan.
  rewrite !ltb_spec, !eqb_spec, !opp_spec, !abs_spec.
  destruct (Prim2SF x) as [?|?| |? ? ?] eqn:E; cbn; intros H; try discriminate.
  - left. assert (Hx : - abs x = -0).
    { apply Prim2SF_inj. rewrite opp_spec, abs_spec, E. reflexivity. }
    rewrite Hx. reflexivity.
  - right. reflexivity.
Qed.

Lemma sub_zero x : x - 0 = x.
Proof.
  apply Prim2SF_inj. rewrite sub_spec.
  change (Prim2SF 0) with (S754_zero false).
  destruct (Prim2SF x) as [[]|[]| |]; reflexivity.
Qed.

(** Nothing is greater than [+Infinity]. *)
Lemma ltb_infinity x : (infinity <? x) = false.
Proof.
  rewrite ltb_spec. change (Prim2SF infinity) with (S754_infinity false).
  unfold SFltb. destruct (Prim2SF x) as [[]|[]| |]; reflexivity.
Qed.

Lemma lex_trans (e1 e2 e3 : Z) (m1 m2 m3 : positive) :
  lex e1 e2 m1 m2 <> Gt -> lex e2 e3 m2 m3 <> Gt -> lex e1 e3 m1 m3 <> Gt.
Proof.
  unfold lex. intros H1 H2 H3.
  destruct (e1 ?= e2)%Z eqn:E12, (e2 ?= e3)%Z eqn:E23, (e1 ?= e3)%Z eqn:E13;
    try congruence;
    rewrite ?Z.compare_eq_iff, ?Z.compare_lt_iff, ?Z.compare_gt_iff in *;
    try lia;
    destruct (m1 ?= m2)%positive eqn:M12, (m2 ?= m3)%positive eqn:M23;
    try congruence;
    rewrite ?Pos.compare_eq_iff, ?Pos.compare_lt_iff, ?Pos.compare_gt_iff in *;
    lia.
Qed.

Lemma SFleb_trans x y z : SFleb x y = true -> SFleb y z = true -> SFleb x z = true.
Proof.
  unfold SFleb.
  destruct x as [sx|sx| |sx mx ex], y as [sy|sy| |sy my ey], z as [sz|sz| |sz mz ez];
    cbn; try congruence;
    try (destruct sx; congruence); try (destruct sy; congruence); try (destruct sz; congruence);
    try (destruct sx, sy; congruence); try (destruct sy, sz; congruence);
    try (destruct sx, sz; congruence); try (destruct sx, sy, sz; congruence).
  all: change (PosDef.Pos.compare_cont Eq) with Pos.compare.
  all: destruct sx, sy, sz; try congruence.
  all: try (destruct (ex ?= ey)%Z, (mx ?= my)%positive; cbn; congruence).
  all: try (destruct (ey ?= ez)%Z, (my ?= mz)%positive; cbn; congruence).
  - pose proof (lex_trans ez ey ex mz my mx) as L. unfold lex in L.
    rewrite (Z.compare_antisym ey ez), (Z.compare_antisym ex ey), (Z.compare_antisym ex ez) in L.
    rewrite (Pos.compare_antisym my mz), (Pos.compare_antisym mx my), (Pos.compare_antisym mx mz) in L.
    destruct (ex ?= ey)%Z, (ey ?= ez)%Z, (ex ?= ez)%Z,
      (mx ?= my)%positive, (my ?= mz)%positive, (mx ?= mz)%positive; cbn in *;
      intros; try congruence; exfalso; apply L; congruence.
  - pose proof (lex_trans ex ey ez mx my mz) as L. unfold lex in L.
    destruct (ex ?= ey)%Z, (ey ?= ez)%Z, (ex ?= ez)%Z,
      (mx ?= my)%positive, (my ?= mz)%positive, (mx ?= mz)%positive; cbn in *;
      intros; try congruence; exfalso; apply L; congruence.
Qed.

Lemma leb_trans x y z : (x <=? y) = true -> (y <=? z) = true -> (x <=? z) = true.
Proof. rewrite !leb_spec. apply SFleb_trans. Qed.

End FloatFacts.

(** ** The MAX31865 driver *)

Module Max31865Facts.
Import Async Max31865 Max31865Obs.
Local Open Scope Z_scope.

(** *** One exchange at a time *)

Lemma readUint8_run B (this : MAX31865 B) (register : Z) (w : World B) :
  _readUint8 this register w =
  let (r, b) := transfer (_device this) [register mod 256; 0] (bus w) in
  (match r with Resolved rx => Resolved (Js.at_ rx 1) | Rejected e => Rejected e end,
   mkWorld b (trace w ++ [Transfer [register mod 256; 0] 2 r])).
Proof.
  unfold _readUint8, deviceTransfer. simpl.
  destruct (transfer _ _ _) as [[rx|e] b]; reflexivity.
Qed.

Lemma writeUint8_run B (this : MAX31865 B) (register data : Z) (w : World B) :
  _writeUint8 this register data w =
  let (r, b) := transfer (_device this) [register mod 256; sentByte data] (bus w) in
  (unitOutcome r,
   mkWorld b (trace w ++ [Transfer [register mod 256; sentByte data] 2 r])).
Proof.
  unfold _writeUint8, deviceTransfer, sentByte. simpl.
  destruct (transfer _ _ _) as [[rx|e] b]; reflexivity.
Qed.

Lemma toggleConfigBit_run B (this : MAX31865 B) predicate bitLocation (w : World B) :
  _toggleConfigBit this predicate bitLocation w =
  match transfer (_device this) [0; 0] (bus w) with
  | (Rejected e, b) =>
      (Rejected e, mkWorld b (trace w ++ [Transfer [0; 0] 2 (Rejected e)]))
  | (Resolved rx, b) =>
      let data := sentByte (toggled predicate bitLocation (Js.at_ rx 1)) in
      let (r, b') := transfer (_device this) [128; data] b in
      (unitOutcome r,
       mkWorld b' (trace w ++ [Transfer [0; 0] 2 (Resolved rx); Transfer [128; data] 2 r]))
  end.
Proof.
  unfold _toggleConfigBit, await. rewrite readUint8_run.
  change (ReadRegister.CONFIG mod 256) with 0.
  destruct (transfer _ _ _) as [[rx|e] b]; [|reflexivity].
  rewrite writeUint8_run. change (WriteRegister.CONFIG mod 256) with 128. simpl.
  unfold toggled.
  destruct predicate; destruct (transfer _ _ _) as [[rx'|e'] b']; simpl;
    rewrite <- app_assoc; reflexivity.
Qed.

Ltac bus_step :=
  match goal with
  | |- context [transfer ?dev ?send ?st] =>
      let E := fresh "E" in
      destruct (transfer dev send st) as [[?rx|?e] ?b] eqn:E;
      cbn [unitOutcome bus trace fst snd]
  end.

(** The masked byte is never the bias, one-shot, auto-conversion, wire or
    50 Hz bit, nor the fault-clear bit: only bit 3 survives. *)
Lemma sentByte_bit3 (data : Z) : sentByte data = 0 \/ sentByte data = 8.
Proof.
  unfold sentByte, Js.band.
  assert (H : Z.land (Js.toInt32 data) (2 ^ 3) =
              if Z.testbit (Js.toInt32 data) 3 then 2 ^ 3 else 0).
  { apply Z.bits_inj'. intros n Hn. rewrite Z.land_spec, Z.pow2_bits_eqb by lia.
    destruct (Z.eqb_spec 3 n) as [<-|Hne].
    - destruct (Z.testbit _ 3); [rewrite Z.pow2_bits_true by lia|rewrite Z.bits_0];
        reflexivity.
    - rewrite andb_false_r.
      destruct (Z.testbit _ 3); [rewrite Z.pow2_bits_false by lia|rewrite Z.bits_0];
        reflexivity. }
  change (Js.toInt32 8) with (2 ^ 3). rewrite H.
  destruct (Z.testbit _ 3); [right|left]; reflexivity.
Qed.

(** *** The raw code *)

Lemma raw_code_octets msb lsb :
  octet msb -> octet lsb ->
  Js.sar (Js.bor (Js.shl msb 8) lsb) 1 = Z.shiftr (msb * 256 + lsb) 1.
Proof.
  unfold octet. intros Hm Hl.
  assert (Hs : Js.shl msb 8 = msb * 256).
  { unfold Js.shl, Js.toInt32. change (8 mod 32) with 8.
    rewrite Z.shiftl_mul_pow2 by lia. change (2 ^ 8) with 256.
    rewrite (Z.mod_small (msb + _)) by lia.
    replace (msb + 2147483648 - 2147483648) with msb by lia.
    rewrite Z.mod_small by lia. lia. }
  rewrite Hs.
  assert (Ho : Z.lor (msb * 256) lsb = msb * 256 + lsb).
  { replace (msb * 256) with (Z.shiftl msb 8)
      by (rewrite Z.shiftl_mul_pow2 by lia; reflexivity).
    rewrite <- Z.lxor_lor, <- Z.add_nocarry_lxor; try reflexivity.
    all: apply Z.bits_inj'; intros n Hn; rewrite Z.land_spec, Z.bits_0;
      destruct (Z.ltb_spec n 8);
      [ rewrite Z.shiftl_spec_low by lia; reflexivity
      | rewrite (Z.bits_above_log2 lsb n), andb_false_r; try reflexivity; try lia;
        destruct (Z.eq_dec lsb 0) as [->|]; [cbn; lia|];
        apply Z.log2_lt_pow2; try lia; eapply Z.lt_le_trans with 256; try lia;
        change 256 with (2^8); apply Z.pow_le_mono_r; lia ]. }
  unfold Js.sar, Js.bor, Js.toInt32. change (1 mod 32) with 1.
  rewrite (Z.mod_small (msb * 256 + _)) by lia.
  replace (msb * 256 + 2147483648 - 2147483648) with (msb * 256) by lia.
  rewrite (Z.mod_small (lsb + _)) by lia.
  replace (lsb + 2147483648 - 2147483648) with lsb by lia.
  rewrite Ho.
  rewrite (Z.mod_small (msb * 256 + lsb + _)) by lia.
  replace (msb * 256 + lsb + 2147483648 - 2147483648) with (msb * 256 + lsb) by lia.
  rewrite (Z.mod_small) by lia.
  f_equal; lia.
Qed.

Ltac split_last :=
  match goal with
  | |- exists before send n, ?l = _ /\ _ =>
      exists (removelast l); do 2 eexists; split; reflexivity
  end.

Ltac close_rejected :=
  eexists; split; [cbn [fst snd trace]; rewrite <- ?app_assoc; reflexivity|];
  split; [reflexivity|]; cbn [fst snd app]; split_last.

Ltac close_failed :=
  cbn [fst snd trace]; rewrite <- ?app_assoc;
  match goal with
  | |- exists before send n, _ ++ ?l = _ =>
      exists (removelast l); do 2 eexists; reflexivity
  end.

(** C7 (as amended): [getTemperature] puts at most seven transfers on
    the bus and never addresses the fault-status register.  It rejects
    exactly when a transfer fails: the error is that transfer's error, the
    failed transfer is the last thing on the bus (no retry, nothing after
    it), and every earlier transfer had succeeded.  When no transfer fails
    it resolves with the decoded temperature of the raw code and nothing
    else. *)
Theorem getTemperature_outcome B (this : MAX31865 B) (w : World B) :
  exists events,
    trace (snd (getTemperature this w)) = trace w ++ events
    /\ forallb (fun ev => negb (addresses ReadRegister.FaultStatue ev)) events = true
    /\ match fst (getTemperature this w) with
       | Rejected e =>
           exists before send n,
             events = before ++ [Transfer send n (Rejected e)]
             /\ forallb (fun ev => negb (failed ev)) before = true
       | Resolved t =>
           forallb (fun ev => negb (failed ev)) events = true
           /\ exists raw,
               fst (readRTD this w) = Resolved raw
               /\ t = temperatureOfResistance this (resistanceOfRaw this raw)
       end.
Proof.
  unfold getTemperature, readRTD, clearFaultStatus, setBiasVoltage, setOneShot,
    _delay, await, setTimeoutResolve, resolve.
  rewrite toggleConfigBit_run.
  bus_step; [cbn zeta; bus_step|].
  2,3: close_rejected.
  rewrite toggleConfigBit_run.
  bus_step; [cbn zeta; bus_step|].
  2,3: close_rejected.
  cbn [bus trace].
  rewrite toggleConfigBit_run.
  bus_step; [cbn zeta; bus_step|].
  2,3: close_rejected.
  cbn [bus trace].
  unfold _readUint16, deviceTransfer. cbn [bus trace].
  change (Js.Buffer_from _) with [1; 0; 0].
  bus_step.
  - eexists. split; [rewrite <- !app_assoc; reflexivity|]. split; [reflexivity|].
    split; [reflexivity|]. eexists. split; reflexivity.
  - close_rejected.
Qed.
(** C7 (counterexample): two sensors that differ in every fault
    indication give the very same result, a bare number: the result of a
    successful call carries no fault mark, so no reading of it can tell a
    faulted device from a healthy one. *)
Lemma fault_not_reported :
  SimChip.faultStatus chipFaulted <> 0
  /\ Z.testbit (SimChip.rtd chipFaulted) 0 = true
  /\ SimChip.faultStatus chipOk = 0
  /\ fst (getTemperature SimChip.pt100 (SimChip.boot chipFaulted))
     = Resolved (-49.991400496397631)%float
  /\ fst (getTemperature SimChip.pt100 (SimChip.boot chipOk))
     = Resolved (-49.991400496397631)%float
  /\ ~ (exists faulted : Outcome Js.number -> bool,
         forall chip,
           SimChip.healthy chip = None ->
           faulted (fst (getTemperature SimChip.pt100 (SimChip.boot chip)))
           = negb (SimChip.faultStatus chip =? 0)).
Proof.
  assert (Hf : fst (getTemperature SimChip.pt100 (SimChip.boot chipFaulted))
               = Resolved (-49.991400496397631)%float) by (vm_compute; reflexivity).
  assert (Ho : fst (getTemperature SimChip.pt100 (SimChip.boot chipOk))
               = Resolved (-49.991400496397631)%float) by (vm_compute; reflexivity).
  split; [discriminate|]. split; [reflexivity|]. split; [reflexivity|].
  split; [exact Hf|]. split; [exact Ho|].
  intros [faulted H].
  pose proof (H chipFaulted eq_refl) as H1.
  pose proof (H chipOk eq_refl) as H2.
  rewrite Hf in H1. rewrite Ho in H2. rewrite H1 in H2. discriminate.
Qed.

(** The simulated chip answers the RTD read with the two octets of its
    16-bit register, whatever was written to its configuration register. *)
Lemma readRTD_on_chip (cfg reg fs : Z) :
  fst (readRTD SimChip.pt100 (SimChip.boot (SimChip.mkChip cfg reg fs None))) =
  Resolved (Js.sar (Js.bor (Js.shl (Z.shiftr reg 8 mod 256) 8) (reg mod 256)) 1).
Proof.
  unfold readRTD, clearFaultStatus, setBiasVoltage, setOneShot, _delay, await,
    setTimeoutResolve, resolve.
  repeat (rewrite toggleConfigBit_run; cbn).
  reflexivity.
Qed.

(** The bus traffic of [readRTD] and its raw code.  [readRTD] puts on
    the bus, in this order and nothing else: a read and a write of the
    configuration register, a second read and write, a wait of 10 ms, a
    third read and write, a wait of 65 ms, and one 3-byte read at the RTD
    MSB register.  The byte of each write is what [_writeUint8] lets through
    ([sentByte]) of the configuration read with bit 0x02, 0x80 and 0x20
    set.  It resolves with [((msb << 8) | lsb) >> 1] of the two octets
    received, that is the 16-bit register value shifted right by one,
    [msb * 128 + (lsb >> 1)], a 15-bit number in which bit 0 of the register
    (the fault bit) has no part.  It rejects only when one of these
    transfers fails.  On the simulated chip the raw code is the register
    value shifted right by one; the register values 0x0002 and 0x0003 both
    give 1. *)
Theorem readRTD_sequence_and_raw_code :
  (forall B (this : MAX31865 B) (w : World B),
      match readRTD this w with
      | (Resolved raw, w') =>
          exists c1 a1 c2 a2 c3 a3 rx,
            trace w' = trace w ++
              [ Transfer [0; 0] 2 (Resolved c1);
                Transfer [128; sentByte (Js.bor (Js.at_ c1 1) 0x02)] 2 (Resolved a1);
                Transfer [0; 0] 2 (Resolved c2);
                Transfer [128; sentByte (Js.bor (Js.at_ c2 1) 0x80)] 2 (Resolved a2);
                Delay 10;
                Transfer [0; 0] 2 (Resolved c3);
                Transfer [128; sentByte (Js.bor (Js.at_ c3 1) 0x20)] 2 (Resolved a3);
                Delay 65;
                Transfer [1; 0; 0] 3 (Resolved rx) ]
            /\ raw = Js.sar (Js.bor (Js.shl (Js.at_ rx 1) 8) (Js.at_ rx 2)) 1
            /\ (octet (Js.at_ rx 1) -> octet (Js.at_ rx 2) ->
                raw = Z.shiftr (Js.at_ rx 1 * 256 + Js.at_ rx 2) 1
                /\ raw = Js.at_ rx 1 * 128 + Z.shiftr (Js.at_ rx 2) 1
                /\ 0 <= raw < 32768)
      | (Rejected e, w') =>
          exists before send n,
            trace w' = trace w ++ before ++ [Transfer send n (Rejected e)]
      end)
  /\ (forall cfg reg fs,
        0 <= reg < 65536 ->
        fst (readRTD SimChip.pt100 (SimChip.boot (SimChip.mkChip cfg reg fs None)))
        = Resolved (Z.shiftr reg 1))
  /\ fst (readRTD SimChip.pt100 (SimChip.boot (SimChip.mkChip 0 0x0002 0 None)))
     = Resolved 1
  /\ fst (readRTD SimChip.pt100 (SimChip.boot (SimChip.mkChip 0 0x0003 0 None)))
     = Resolved 1.
Proof.
  split; [|split; [|split; reflexivity]].
  - intros B this w.
    unfold readRTD, clearFaultStatus, setBiasVoltage, setOneShot, _delay, await,
      setTimeoutResolve, resolve.
    rewrite toggleConfigBit_run.
    bus_step; [cbn zeta; bus_step|]. 2,3: close_failed.
    rewrite toggleConfigBit_run.
    bus_step; [cbn zeta; bus_step|]. 2,3: close_failed.
    cbn [bus trace].
    rewrite toggleConfigBit_run.
    bus_step; [cbn zeta; bus_step|]. 2,3: close_failed.
    cbn [bus trace].
    unfold _readUint16, deviceTransfer. cbn [bus trace].
    change (Js.Buffer_from _) with [1; 0; 0].
    bus_step; [|close_failed].
    exists rx, rx0, rx1, rx2, rx3, rx4, rx5. cbn [trace toggled].
    split; [repeat rewrite <- app_assoc; reflexivity|].
    split; [reflexivity|].
    intros Hm Hl. rewrite raw_code_octets by assumption.
    unfold octet in *.
    rewrite !Z.shiftr_div_pow2 by lia. change (2 ^ 1) with 2.
    repeat split.
    + replace (Js.at_ rx5 1 * 256 + Js.at_ rx5 2)
        with (Js.at_ rx5 2 + (Js.at_ rx5 1 * 128) * 2) by lia.
      rewrite Z.div_add by lia. lia.
    + apply Z.div_pos; lia.
    + apply Z.div_lt_upper_bound; lia.
  - intros cfg reg fs Hreg. rewrite readRTD_on_chip.
    rewrite raw_code_octets.
    + rewrite (Z.shiftr_div_pow2 reg 8) by lia. change (2 ^ 8) with 256.
      rewrite (Z.mod_small (reg / 256)).
      * rewrite (Z.mul_comm (reg / 256)), <- Z.div_mod by lia. reflexivity.
      * split; [apply Z.div_pos; lia|apply Z.div_lt_upper_bound; lia].
    + apply Z.mod_pos_bound. lia.
    + apply Z.mod_pos_bound. lia.
Qed.

(** C2 (the code at a failing input): [setBiasVoltage(true)] on a chip
    whose configuration register reads 0x00.  The byte to write back is
    [0x00 | 0x80 = 0x80]; what goes on the bus after the address 0x80 is
    0x00, and the chip's bias bit stays clear.  For any data byte at all,
    [_writeUint8] transmits [data & 0x08]. *)
Theorem setBiasVoltage_sends_masked_byte :
  let chip := SimChip.mkChip 0x00 0 0 None in
  let w' := snd (setBiasVoltage SimChip.pt100 true (SimChip.boot chip)) in
  toggled true 0x80 0x00 = 0x80
  /\ trace w' = [ Transfer [0x00; 0x00] 2 (Resolved [0; 0x00]);
                  Transfer [0x80; 0x00] 2 (Resolved [0; 0]) ]
  /\ SimChip.config (bus w') = 0x00
  /\ (forall B (this : MAX31865 B) (register data : Z) (w : World B),
        exists answer,
          trace (snd (_writeUint8 this register data w)) =
          trace w ++ [Transfer [register mod 256; Js.band data 0x08 mod 256] 2 answer])
  /\ (forall data, sentByte data = 0 \/ sentByte data = 8).
Proof.
  cbv zeta. split; [reflexivity|]. split; [reflexivity|]. split; [reflexivity|]. split.
  - intros B this register data w. rewrite writeUint8_run.
    destruct (transfer _ _ _) as [r b]. exists r. reflexivity.
  - exact sentByte_bit3.
Qed.

End Max31865Facts.

Module DecodeFacts.
Import Async Max31865 Max31865Obs.
Local Open Scope float_scope.

(** C1: the decode computes the closed form for T >= 0 first and returns
    it unchanged when it is [>= 0]; in every other case (a negative value,
    or NaN from the square root of a negative number) it returns the
    5th-order Horner polynomial in [RRt = (Rt / R0) * 100].  For the
    resistance the Callendar-Van Dusen relation gives at -50 degrees C
    the closed form is negative and the value returned is the polynomial's,
    which is not the closed form's. *)
Theorem getTemperature_two_branch :
  (forall B (device : SpiDevice B) (R0 Rref Rt : Js.number),
      let t := closedFormQuadratic 3.9083e-3 (-5.775e-7) R0 Rt in
      temperatureOfResistance (new device R0 Rref) Rt =
      if (0 <=? t) then t else polynomialBranch (Rt / R0 * 100))
  /\ (forall B (this : MAX31865 B) (w : World B),
        getTemperature this w =
        match readRTD this w with
        | (Resolved raw, w') =>
            (Resolved (temperatureOfResistance this
                         ((Js.ofInt raw / 32768) * _rRef this)), w')
        | (Rejected e, w') => (Rejected e, w')
        end)
  /\ (let R := callendarVanDusen 100 (-50) in
      let t := closedFormQuadratic 3.9083e-3 (-5.775e-7) 100 R in
      (t <? 0) = true
      /\ temperatureOfResistance SimChip.pt100 R = polynomialBranch (R / 100 * 100)
      /\ (temperatureOfResistance SimChip.pt100 R =? t) = false
      /\ (-50.01 <? temperatureOfResistance SimChip.pt100 R) = true
      /\ (temperatureOfResistance SimChip.pt100 R <? -49.99) = true).
Proof.
  split; [|split].
  - intros B device R0 Rref Rt t. subst t.
    unfold temperatureOfResistance, closedFormQuadratic, polynomialBranch, horner5,
      Js.ge, Js.Math_sqrt.
    cbn [new _rtdA _rtdB _rNom _coeffs5thOrder hornerLoop fold_left].
    rewrite FloatFacts.add_opp. reflexivity.
  - intros B this w. unfold getTemperature, await, resolve, resistanceOfRaw.
    destruct (readRTD this w) as [[raw|e] w']; reflexivity.
  - vm_compute. repeat split.
Qed.

End DecodeFacts.

(** ** The duty-cycle and latched actuators *)

Module SwitchFacts.
Import Switch SwitchObs.
Local Open Scope float_scope.

(** With no timer pending, time passing changes nothing but the clock. *)
Lemma runUntil_idle fuel t (s : State) :
  timers (snd s) = [] ->
  runUntil fuel t s = Some (fst s, setClock t (snd s)).
Proof.
  intros H. destruct fuel; cbn; unfold fireNext; rewrite H; reflexivity.
Qed.

(** A wake-up that finds the current phase not yet over schedules
    nothing and changes nothing, whatever [stopAfterNext] was: the call
    [this.start()] at the end of the callback finds [_started] still set. *)
Lemma fn_without_toggle stopAfterNext (s : State) :
  _started (fst s) = true ->
  Js.gt (Date_now (snd s) - _toggledTime (fst s))
        (if _on (fst s) then _onCycleTime (fst s) else _offCycleTime (fst s)) = false ->
  fn stopAfterNext s = s.
Proof.
  intros Hs Hc. unfold fn. destruct (_on (fst s)); rewrite Hc;
    destruct (truthy stopAfterNext); try reflexivity;
    unfold start; destruct s as [d rt]; cbn in Hs |- *; rewrite Hs; reflexivity.
Qed.

(** The off phase of a latched device never ends by itself. *)
Lemma latched_never_auto_on stopAfterNext (s : State) :
  _offCycleTime (fst s) = infinity ->
  _on (fst s) = false ->
  _on (fst (fn stopAfterNext s)) = false
  /\ emitted (snd (fn stopAfterNext s)) = emitted (snd s).
Proof.
  intros Hinf Hoff. unfold fn. rewrite Hoff, Hinf.
  unfold Js.gt. rewrite FloatFacts.ltb_infinity.
  destruct (truthy stopAfterNext); [|split; [assumption|reflexivity]].
  unfold start. destruct s as [d rt]. cbn in Hoff |- *.
  destruct (_started d); cbn; split; assumption || reflexivity.
Qed.

(** C10: [setOnCycleTime] and [setOffCycleTime] store the new duration
    and restart the timer loop (the pending callback is cancelled, a new
    one is due one polling interval from now, the interval being the delay
    [setTimeout] works with).  The output, the last-toggle
    time, the other duration, the polling interval and the clock are what
    they were, and nothing is emitted. *)
Theorem setCycleTime_frame (time : Js.number) (s : State) :
  (_onCycleTime (fst (setOnCycleTime time s)) = time
   /\ _offCycleTime (fst (setOnCycleTime time s)) = _offCycleTime (fst s)
   /\ untouched s (setOnCycleTime time s)
   /\ restarted s (setOnCycleTime time s))
  /\
  (_offCycleTime (fst (setOffCycleTime time s)) = time
   /\ _onCycleTime (fst (setOffCycleTime time s)) = _onCycleTime (fst s)
   /\ untouched s (setOffCycleTime time s)
   /\ restarted s (setOffCycleTime time s)).
Proof.
  destruct s as [d rt]. destruct d as [on tt st ii [id|] onT offT];
    unfold untouched, restarted, pendingAfterStop,
      setOnCycleTime, setOffCycleTime, _resetCallbackLoop, stop; cbn.
  - destruct (id =? 0)%Z; cbn; repeat split.
  - repeat split.
Qed.

(** C3 (the code at a failing input): a device with a 1000 ms on phase
    and a 2000 ms off phase, [start()] at [t0], [stop()] never called.  The
    first wake-up (at [t0 + 500]) turns the output on, which restarts the
    loop; the second (at [t0 + 1000]) finds the on phase not over and
    schedules nothing.  From then on no callback is pending: at every later
    time the output is still on, one ["on"] and no ["off"] was ever emitted.
    [start(true)] does exactly the same, two checks included. *)
Theorem start_loop_dies_without_toggle (t : Js.number) :
  (t0 + 1000 <=? t) = true ->
  let d := new 1000 2000 None in
  let final : State :=
    (mkTimedSwitchDevice true (t0 + 500) true 500 (Some 2%Z) 1000 2000,
     mkRuntime t [] 3 ["on"%string]) in
  runUntil 2 t (start None (d, boot)) = Some final
  /\ runUntil 2 t (start (Some true) (d, boot)) = Some final.
Proof.
  intros H2.
  assert (H1 : (t0 + 500 <=? t) = true).
  { apply (FloatFacts.leb_trans _ (t0 + 1000)); [reflexivity|exact H2]. }
  vm_compute in H1, H2. vm_compute. rewrite H1, H2. split; reflexivity.
Qed.

Lemma start_loop_dies_without_toggle_witness :
  let t := t0 + 60000 in
  let d := new 1000 2000 None in
  let final : State :=
    (mkTimedSwitchDevice true (t0 + 500) true 500 (Some 2%Z) 1000 2000,
     mkRuntime t [] 3 ["on"%string]) in
  runUntil 2 t (start None (d, boot)) = Some final
  /\ runUntil 2 t (start (Some true) (d, boot)) = Some final.
Proof.
  apply (start_loop_dies_without_toggle (t0 + 60000)). reflexivity.
Defined.

(** C9 (the code at a failing input): a latched device with a cycle time
    of 5000 ms, [turnOn()] at [t0].  The only wake-up (at [t0 + 500]) finds
    the on phase not over and schedules nothing, so the output is never
    turned off: at [t0 + 5000], and at every time from [t0 + 500] on, it is
    still on and no ["off"] was emitted. *)
Theorem latched_stays_on (t : Js.number) :
  (t0 + 500 <=? t) = true ->
  latchedRunUntil 1 t (latchedTurnOn (newLatched 5000, boot)) =
  Some (mkLatched (mkTimedSwitchDevice true t0 true 500 (Some 1%Z) 5000 infinity),
        mkRuntime t [] 2 ["on"%string]).
Proof.
  intros H. vm_compute in H. vm_compute. rewrite H. reflexivity.
Qed.

Lemma latched_stays_on_witness :
  latchedRunUntil 1 (t0 + 6000) (latchedTurnOn (newLatched 5000, boot)) =
  Some (mkLatched (mkTimedSwitchDevice true t0 true 500 (Some 1%Z) 5000 infinity),
        mkRuntime (t0 + 6000) [] 2 ["on"%string]).
Proof.
  apply (latched_stays_on (t0 + 6000)). reflexivity.
Defined.

End SwitchFacts.

(** ** The controller *)

Module TraegerFacts.
Import TraegerCtl.

(** C8 (the code at a failing input): on a new controller, which is in
    [Off], [setState(Hold)] is a request outside the allowed set, and so is
    [setState(Off)] for a controller in [Smoke].  Every call of [setState]
    returns normally and leaves the controller, its state machine included,
    as it was. *)
Theorem setState_never_fails :
  (forall config state,
      setState state (new config) = (Returned, new config)
      /\ currentState (_fsm (new config)) = Off
      /\ transitions (_fsm (new config)) = [(Off, Start); (Start, Hold); (Start, Smoke)])
  /\ (forall state t, setState state t = (Returned, t))
  /\ specAllowedTransition Off Hold = false
  /\ specAllowedTransition Smoke Off = false.
Proof.
  repeat split.
Qed.

End TraegerFacts.

(** ** The PID controller *)

Module PidFacts.
Import Pid PidObs FloatFacts.
Local Open Scope float_scope.

(** *** The clamp *)

Lemma Math_max_lower v lo :
  is_nan v = false -> is_nan lo = false ->
  (lo <=? Js.Math_max v lo) = true /\ is_nan (Js.Math_max v lo) = false.
Proof.
  intros Hv Hlo. unfold Js.Math_max. rewrite Hv, Hlo. cbn [orb].
  destruct (v <? lo) eqn:E1.
  - split; [apply leb_refl|]; assumption.
  - destruct (lo <? v) eqn:E2.
    + split; [apply ltb_leb|]; assumption.
    + destruct (Js.isNegZero v).
      * split; [apply leb_refl|]; assumption.
      * split; [apply ltb_false_leb|]; assumption.
Qed.

Lemma Math_min_bounds r lo hi :
  is_nan r = false -> (lo <=? r) = true -> (lo <=? hi) = true ->
  (lo <=? Js.Math_min r hi) = true /\ (Js.Math_min r hi <=? hi) = true.
Proof.
  intros Hr Hlo Hlh. destruct (leb_not_nan _ _ Hlh) as [_ Hhi].
  unfold Js.Math_min. rewrite Hr, Hhi. cbn [orb].
  destruct (r <? hi) eqn:E1.
  - split; [assumption|apply ltb_leb; assumption].
  - destruct (hi <? r) eqn:E2.
    + split; [assumption|apply leb_refl; assumption].
    + destruct (Js.isNegZero r).
      * split; [assumption|apply ltb_false_leb; assumption].
      * split; [assumption|apply leb_refl; assumption].
Qed.

Lemma clamp_within v m :
  is_nan v = false -> (- m <=? m) = true ->
  (- m <=? clamp v (- m) m) = true /\ (clamp v (- m) m <=? m) = true.
Proof.
  intros Hv Hm. destruct (leb_not_nan _ _ Hm) as [Hlo _].
  destruct (Math_max_lower v (- m) Hv Hlo) as [H1 H2].
  unfold clamp. apply Math_min_bounds; assumption.
Qed.

Lemma clamp_saturates_high v x :
  (abs x <? v) = true -> clamp v (- abs x) (abs x) = abs x.
Proof.
  intros H. destruct (ltb_not_nan _ _ H) as [Hm Hv].
  destruct (above_abs _ _ H) as [H1 H2].
  unfold clamp, Js.Math_max. rewrite Hv, is_nan_opp, Hm, H1, H2. cbn [orb].
  unfold Js.Math_min. rewrite Hv, Hm, (ltb_asym _ _ H), H. reflexivity.
Qed.

Lemma clamp_saturates_low v x :
  (v <? - abs x) = true -> clamp v (- abs x) (abs x) = - abs x.
Proof.
  intros H. destruct (ltb_not_nan _ _ H) as [Hv Hm].
  unfold clamp, Js.Math_max. rewrite Hv, Hm, H. cbn [orb].
  rewrite is_nan_opp in Hm.
  unfold Js.Math_min. rewrite is_nan_opp, Hm. cbn [orb].
  destruct (- abs x <? abs x) eqn:E; [reflexivity|].
  assert (E' : (abs x <? - abs x) = false).
  { rewrite ltb_spec, opp_spec, abs_spec. unfold SFltb.
    destruct (Prim2SF x) as [?|?| |? ? ?]; reflexivity. }
  rewrite E'. destruct (isNegZero_opp_abs x E) as [->|N]; [reflexivity|congruence].
Qed.

Lemma call_maxIntegrator c op : _maxIntegrator (call c op) = _maxIntegrator c.
Proof. destruct op; reflexivity. Qed.

Lemma call_within c op :
  (- _maxIntegrator c <=? _maxIntegrator c) = true ->
  numericStep c op = true ->
  withinBound (call c op) = true.
Proof.
  intros Hm Hn. unfold withinBound. rewrite call_maxIntegrator.
  apply andb_true_iff. destruct op as [T|now T].
  - cbn. apply opp_leb_zero, Hm.
  - cbn in Hn. apply negb_true_iff in Hn. cbn. apply clamp_within; assumption.
Qed.

Lemma calls_within ops : forall c,
  (- _maxIntegrator c <=? _maxIntegrator c) = true ->
  withinBound c = true ->
  numericRun ops c = true ->
  withinBound (calls ops c) = true.
Proof.
  induction ops as [|op ops IH]; intros c Hm Hw Hn; [exact Hw|].
  cbn in Hn. apply andb_true_iff in Hn. destruct Hn as [H1 H2].
  cbn. apply IH.
  - rewrite call_maxIntegrator. exact Hm.
  - apply call_within; assumption.
  - exact H2.
Qed.

Lemma calls_maxIntegrator ops : forall c, _maxIntegrator (calls ops c) = _maxIntegrator c.
Proof.
  induction ops as [|op ops IH]; intros c; [reflexivity|].
  cbn. rewrite IH. apply call_maxIntegrator.
Qed.

(** C5 (as amended): after any sequence of [setDesiredTemp] and
    [getControllerResponse] calls on a new controller, [maxIntegrator] is
    still [|0.5 / Ki|] and [-maxIntegrator <= integratorSum <= maxIntegrator],
    provided [maxIntegrator] is a number and so was every sum
    [integratorSum + error * dt] that was clamped on the way.  A further
    update whose sum is above [maxIntegrator] stores exactly [maxIntegrator],
    and one whose sum is below [-maxIntegrator] stores exactly
    [-maxIntegrator]. *)
Theorem integrator_bounded (pb ti td : Js.number) (ops : list Call) :
  is_nan (_maxIntegrator (new pb ti td)) = false ->
  numericRun ops (new pb ti td) = true ->
  let c := calls ops (new pb ti td) in
  _maxIntegrator c = Js.Math_abs (0.5 / (-1.0 / pb / ti))
  /\ (- _maxIntegrator c <=? _sumT c) = true
  /\ (_sumT c <=? _maxIntegrator c) = true
  /\ (forall now T,
        let v := _sumT c + (T - _tempSetPoint c) * (now - _lastTime c) in
        let c' := call c (CallGetControllerResponse now T) in
        ((_maxIntegrator c <? v) = true -> _sumT c' = _maxIntegrator c)
        /\ ((v <? - _maxIntegrator c) = true -> _sumT c' = - _maxIntegrator c)).
Proof.
  intros Hm Hn c.
  assert (Hmax : _maxIntegrator c = Js.Math_abs (0.5 / (-1.0 / pb / ti))).
  { unfold c. rewrite calls_maxIntegrator. reflexivity. }
  assert (Hle : (- _maxIntegrator (new pb ti td) <=? _maxIntegrator (new pb ti td)) = true).
  { apply opp_abs_leb. exact Hm. }
  assert (Hw : withinBound c = true).
  { apply calls_within; try assumption.
    unfold withinBound. apply andb_true_iff. apply opp_leb_zero. exact Hle. }
  apply andb_true_iff in Hw. destruct Hw as [H1 H2].
  split; [exact Hmax|]. split; [exact H1|]. split; [exact H2|].
  intros now T v c'. subst v c'. cbn [call getControllerResponse snd _sumT
    _calculateIntegratorResponse].
  unfold getControllerResponse, _calculateIntegratorResponse. cbn [snd _sumT].
  rewrite Hmax. unfold Js.Math_abs. split; intros H.
  - apply clamp_saturates_high, H.
  - apply clamp_saturates_low, H.
Qed.

Lemma integrator_bounded_witness :
  let ops := [CallSetDesiredTemp 100;
              CallGetControllerResponse 1700000000000 90;
              CallGetControllerResponse 1700000001000 90;
              CallGetControllerResponse 1700000002000 90] in
  let c := calls ops (new 50 100 10) in
  _maxIntegrator c = Js.Math_abs (0.5 / (-1.0 / 50 / 100))
  /\ (- _maxIntegrator c <=? _sumT c) = true
  /\ (_sumT c <=? _maxIntegrator c) = true
  /\ (forall now T,
        let v := _sumT c + (T - _tempSetPoint c) * (now - _lastTime c) in
        let c' := call c (CallGetControllerResponse now T) in
        ((_maxIntegrator c <? v) = true -> _sumT c' = _maxIntegrator c)
        /\ ((v <? - _maxIntegrator c) = true -> _sumT c' = - _maxIntegrator c)).
Proof.
  apply (integrator_bounded 50 100 10); reflexivity.
Defined.

(** C5 (counterexample): a temperature that is NaN goes through
    [Math.max] and [Math.min] as NaN and is stored: the integrator sum is
    then neither [>= -maxIntegrator] nor [<= maxIntegrator]. *)
Lemma nan_escapes_clamp :
  let c := call (new 50 100 10) (CallGetControllerResponse 1700000000000 nan) in
  _maxIntegrator c = 2500
  /\ is_nan (_sumT c) = true
  /\ (- _maxIntegrator c <=? _sumT c) = false
  /\ (_sumT c <=? _maxIntegrator c) = false
  /\ withinBound c = false.
Proof. vm_compute. repeat split. Qed.

(** C4 (counterexample): a controller with some history gets a new
    setpoint and is asked for a response.  [dt] is the whole time since the
    epoch, neither undefined nor zero; the integral term is not suppressed
    but saturated at once ([I = 0.5], the integrator sum at [-maxIntegrator]),
    and the derivative term is not zero either. *)
Lemma first_response_not_suppressed :
  let now := 1700000000000 in
  let c0 := snd (getControllerResponse (now - 1000) 95 (new 50 100 10)) in
  let c1 := setDesiredTemp 100 c0 in
  let r := getControllerResponse now 90 c1 in
  _lastTime c1 = 0
  /\ now - _lastTime c1 = now
  /\ I (snd (fst r)) = 0.5
  /\ (I (snd (fst r)) =? 0) = false
  /\ (D (snd (fst r)) =? 0) = false
  /\ _sumT (snd r) = - _maxIntegrator c1.
Proof. vm_compute. repeat split. Qed.

(** C4 (as amended): [setDesiredTemp(T)] stores the setpoint, zeroes the
    integrator sum and sets the last sample time to 0, leaving the gains and
    the bound alone.  The next [getControllerResponse], at clock time [now],
    has no first-call guard: its [dt] is [now - 0 = now], its integral term
    is [Ki * clamp(0 + error * now, -maxIntegrator, maxIntegrator)] with the
    clamped value stored back, and its derivative term is
    [Kd * (error / now)]. *)
Theorem setDesiredTemp_then_response (c : PIDController) (T now T' : Js.number) :
  let c1 := setDesiredTemp T c in
  let r := getControllerResponse now T' c1 in
  let d := snd (fst r) in
  let clamped := clamp (0 + (T' - T) * now) (- _maxIntegrator c) (_maxIntegrator c) in
  (_tempSetPoint c1 = T /\ _sumT c1 = 0 /\ _lastTime c1 = 0
   /\ _Kp c1 = _Kp c /\ _Ki c1 = _Ki c /\ _Kd c1 = _Kd c
   /\ _maxIntegrator c1 = _maxIntegrator c)
  /\ now - _lastTime c1 = now
  /\ error d = T' - T
  /\ P d = _Kp c * (T' - T) + 0.5
  /\ I d = _Ki c * clamped
  /\ D d = _Kd c * ((T' - T) / now)
  /\ fst (fst r) = P d + I d + D d
  /\ _sumT (snd r) = clamped
  /\ _lastTime (snd r) = now
  /\ _tempSetPoint (snd r) = T.
Proof.
  cbv zeta. unfold getControllerResponse, _calculateIntegratorResponse,
    _calculateDerivativeResponse, _calculateProportionalResponse, setDesiredTemp.
  cbn. rewrite sub_zero. repeat split.
Qed.

End PidFacts.

Module SwitchRunFacts.
Import Switch SwitchRun.
Local Open Scope float_scope.

Lemma alternating_S n :
  alternating (S n) =
  alternating n ++ [if Nat.even n then "on"%string else "off"%string].
Proof. unfold alternating. rewrite seq_S, map_app. reflexivity. Qed.

Lemma stop_sound s :
  loopSound s ->
  loopSound (stop s) /\ timers (snd (stop s)) = [] /\ _started (fst (stop s)) = false.
Proof.
  destruct s as [d rt]. destruct d as [on tt st ii cb onT offT].
  destruct rt as [c ts nid ev]. unfold loopSound, stop. cbn.
  intros (Hn & Hcb & Hts). destruct cb as [id|].
  - destruct (Z.eqb_spec id 0) as [->|Hne]; [lia|]. cbn.
    destruct Hts as [->|(tm & -> & E & _)].
    + cbn. auto.
    + injection E as ->. cbn. rewrite Z.eqb_refl. cbn. auto.
  - cbn. destruct Hts as [->|(tm & _ & E & _)]; [auto|discriminate].
Qed.

Lemma start_sound stopAfterNext s : loopSound s -> loopSound (start stopAfterNext s).
Proof.
  destruct s as [d rt]. destruct d as [on tt st ii cb onT offT].
  destruct rt as [c ts nid ev]. unfold loopSound, start. cbn.
  intros (Hn & Hcb & Hts). destruct st; cbn.
  - auto.
  - split; [lia|]. split; [lia|].
    destruct Hts as [->|(tm & _ & _ & E)]; [|discriminate].
    right. eexists. cbn. auto.
Qed.

Lemma start_events stopAfterNext s :
  emitted (snd (start stopAfterNext s)) = emitted (snd s)
  /\ _on (fst (start stopAfterNext s)) = _on (fst s).
Proof.
  destruct s as [d rt]. unfold start. destruct (_started d); cbn; auto.
Qed.

Lemma stop_events s :
  emitted (snd (stop s)) = emitted (snd s) /\ _on (fst (stop s)) = _on (fst s).
Proof.
  destruct s as [d rt]. unfold stop. cbn.
  destruct (_toggleCallbackID d) as [id|]; [destruct (id =? 0)%Z|]; cbn; auto.
Qed.

Lemma reset_sound s : loopSound s -> loopSound (_resetCallbackLoop s).
Proof. intros H. apply start_sound, stop_sound, H. Qed.

Lemma reset_events s :
  emitted (snd (_resetCallbackLoop s)) = emitted (snd s)
  /\ _on (fst (_resetCallbackLoop s)) = _on (fst s).
Proof.
  unfold _resetCallbackLoop.
  destruct (start_events None (stop s)) as [-> ->]. apply stop_events.
Qed.

(** Changing a field the bookkeeping does not mention. *)
Lemma loopSound_ext d d' rt rt' :
  _toggleCallbackID d' = _toggleCallbackID d ->
  _started d' = _started d ->
  timers rt' = timers rt ->
  nextTimerId rt' = nextTimerId rt ->
  loopSound (d, rt) -> loopSound (d', rt').
Proof.
  unfold loopSound. cbn. intros -> -> -> ->. auto.
Qed.

Lemma turnOn_sound s : loopSound s -> loopSound (turnOn s).
Proof.
  destruct s as [d rt]. unfold turnOn. intros H.
  destruct (_on d); cbn; [exact H|].
  apply reset_sound. revert H. apply loopSound_ext; reflexivity.
Qed.

Lemma turnOff_sound s : loopSound s -> loopSound (turnOff s).
Proof.
  destruct s as [d rt]. unfold turnOff. intros H.
  destruct (_on d); cbn; [|exact H].
  apply reset_sound. revert H. apply loopSound_ext; reflexivity.
Qed.

Lemma turnOn_events s : eventsSound s -> eventsSound (turnOn s).
Proof.
  destruct s as [d rt]. unfold eventsSound, turnOn. cbn [fst snd]. intros [He Ho].
  destruct (_on d) eqn:E; cbn [negb fst snd]; [rewrite E; auto|].
  destruct (reset_events (_setToggledTime (set_on true d, emit "on" rt))) as [-> ->].
  unfold _setToggledTime, emit, set_on, set_toggledTime.
  cbn [fst snd emitted _on]. rewrite length_app. cbn [List.length]. rewrite Nat.add_1_r.
  rewrite alternating_S, <- He.
  symmetry in Ho. rewrite <- Nat.negb_even in Ho. apply negb_false_iff in Ho.
  rewrite Ho. split; [reflexivity|].
  rewrite Nat.odd_succ. symmetry. exact Ho.
Qed.

Lemma turnOff_events s : eventsSound s -> eventsSound (turnOff s).
Proof.
  destruct s as [d rt]. unfold eventsSound, turnOff. cbn [fst snd]. intros [He Ho].
  destruct (_on d) eqn:E; cbn [fst snd]; [|rewrite E; auto].
  destruct (reset_events (_setToggledTime (set_on false d, emit "off" rt))) as [-> ->].
  unfold _setToggledTime, emit, set_on, set_toggledTime.
  cbn [fst snd emitted _on]. rewrite length_app. cbn [List.length]. rewrite Nat.add_1_r.
  rewrite alternating_S, <- He.
  symmetry in Ho. rewrite <- Nat.negb_even in Ho. apply negb_true_iff in Ho.
  rewrite Ho. split; [reflexivity|].
  rewrite Nat.odd_succ. symmetry. exact Ho.
Qed.

Lemma fn_sound stopAfterNext s : loopSound s -> loopSound (fn stopAfterNext s).
Proof.
  intros H. unfold fn.
  assert (H' : loopSound
                 (if _on (fst s)
                  then if Js.gt (Date_now (snd s) - _toggledTime (fst s)) (_onCycleTime (fst s))
                       then turnOff s else s
                  else if Js.gt (Date_now (snd s) - _toggledTime (fst s)) (_offCycleTime (fst s))
                       then turnOn s else s)).
  { destruct (_on (fst s)); destruct (Js.gt _ _);
      auto using turnOn_sound, turnOff_sound. }
  destruct (truthy stopAfterNext); [apply start_sound|]; exact H'.
Qed.

Lemma fn_events stopAfterNext s : eventsSound s -> eventsSound (fn stopAfterNext s).
Proof.
  intros H. unfold fn.
  assert (H' : eventsSound
                 (if _on (fst s)
                  then if Js.gt (Date_now (snd s) - _toggledTime (fst s)) (_onCycleTime (fst s))
                       then turnOff s else s
                  else if Js.gt (Date_now (snd s) - _toggledTime (fst s)) (_offCycleTime (fst s))
                       then turnOn s else s)).
  { destruct (_on (fst s)); destruct (Js.gt _ _);
      auto using turnOn_events, turnOff_events. }
  destruct (truthy stopAfterNext); [|exact H'].
  unfold eventsSound. destruct (start_events None
    (if _on (fst s)
     then if Js.gt (Date_now (snd s) - _toggledTime (fst s)) (_onCycleTime (fst s))
          then turnOff s else s
     else if Js.gt (Date_now (snd s) - _toggledTime (fst s)) (_offCycleTime (fst s))
          then turnOn s else s)) as [-> ->].
  exact H'.
Qed.

Lemma wake_sound s : loopSound s -> loopSound (wake s).
Proof.
  intros H. unfold wake. destruct (earliest (timers (snd s))) as [tm|] eqn:E; [|exact H].
  apply fn_sound. destruct s as [d rt]. destruct H as (Hn & Hcb & Hts).
  unfold loopSound. cbn in *. split; [exact Hn|]. split; [exact Hcb|].
  destruct Hts as [Ht|(tm' & Ht & _)]; rewrite Ht in *; cbn in E.
  - discriminate.
  - injection E as ->. cbn. rewrite Z.eqb_refl. cbn. auto.
Qed.

Lemma wake_events s : eventsSound s -> eventsSound (wake s).
Proof.
  intros H. unfold wake. destruct (earliest (timers (snd s))) as [tm|]; [|exact H].
  apply fn_events. exact H.
Qed.

Lemma step_sound s op : loopSound s -> loopSound (step s op).
Proof.
  intros H. destruct op as [san| | | |time|time| |now]; cbn.
  - apply start_sound, H.
  - apply stop_sound, H.
  - apply turnOn_sound, H.
  - apply turnOff_sound, H.
  - destruct s as [d rt]. unfold setOnCycleTime. apply reset_sound.
    revert H. apply loopSound_ext; reflexivity.
  - destruct s as [d rt]. unfold setOffCycleTime. apply reset_sound.
    revert H. apply loopSound_ext; reflexivity.
  - apply wake_sound, H.
  - destruct s as [d rt]. revert H. apply loopSound_ext; reflexivity.
Qed.

Lemma step_events s op : eventsSound s -> eventsSound (step s op).
Proof.
  intros H. destruct op as [san| | | |time|time| |now]; cbn.
  - unfold eventsSound. destruct (start_events san s) as [-> ->]. exact H.
  - unfold eventsSound. destruct (stop_events s) as [-> ->]. exact H.
  - apply turnOn_events, H.
  - apply turnOff_events, H.
  - destruct s as [d rt]. unfold setOnCycleTime, eventsSound.
    destruct (reset_events (set_onCycleTime time d, rt)) as [-> ->]. exact H.
  - destruct s as [d rt]. unfold setOffCycleTime, eventsSound.
    destruct (reset_events (set_offCycleTime time d, rt)) as [-> ->]. exact H.
  - apply wake_events, H.
  - exact H.
Qed.

Lemma run_sound ops : forall s, loopSound s -> loopSound (run ops s).
Proof.
  induction ops as [|op ops IH]; intros s H; [exact H|].
  cbn. apply IH, step_sound, H.
Qed.

Lemma run_events ops : forall s, eventsSound s -> eventsSound (run ops s).
Proof.
  induction ops as [|op ops IH]; intros s H; [exact H|].
  cbn. apply IH, step_events, H.
Qed.

Lemma fresh_sound a b i now n : (0 < n)%Z -> loopSound (fresh a b i now n).
Proof. intros H. unfold loopSound, fresh. cbn. auto. Qed.

Lemma fresh_events a b i now n : eventsSound (fresh a b i now n).
Proof. unfold eventsSound, fresh. cbn. auto. Qed.


(** X7: bookkeeping of the timer loop.  Whatever is done to a new device
    (method calls, callbacks running, the clock moving), at most one
    callback is pending; [stop()] leaves none pending, and from then on the
    passage of time changes nothing but the clock. *)
Theorem stop_halts_the_loop a b i now n (ops : list Op) :
  (0 < n)%Z ->
  let s := run ops (fresh a b i now n) in
  (List.length (timers (snd s)) <= 1)%nat
  /\ timers (snd (stop s)) = []
  /\ _started (fst (stop s)) = false
  /\ (forall fuel t,
        runUntil fuel t (stop s) = Some (fst (stop s), setClock t (snd (stop s)))).
Proof.
  intros Hn s.
  assert (H : loopSound s) by (apply run_sound, fresh_sound, Hn).
  destruct (stop_sound s H) as (_ & Ht & Hs).
  split.
  - destruct H as (_ & _ & [->|(tm & -> & _)]); cbn; lia.
  - split; [exact Ht|]. split; [exact Hs|].
    intros fuel t. apply SwitchFacts.runUntil_idle, Ht.
Qed.

Lemma stop_halts_the_loop_witness :
  let s := run [OpTurnOn; OpWake; OpSetOnCycleTime 100; OpWake; OpStart None]
               (fresh 1000 2000 None 1700000000000 1) in
  (List.length (timers (snd s)) <= 1)%nat
  /\ timers (snd (stop s)) = []
  /\ _started (fst (stop s)) = false
  /\ (forall fuel t,
        runUntil fuel t (stop s) = Some (fst (stop s), setClock t (snd (stop s)))).
Proof.
  apply (stop_halts_the_loop 1000 2000 None 1700000000000 1). reflexivity.
Defined.

(** X8: the events tell the output.  Whatever is done to a new device, the
    events emitted so far are ["on"], ["off"], ["on"], ... in alternation,
    and the output is on exactly when their number is odd: every change of
    the output is announced once, and nothing else is. *)
Theorem events_alternate a b i now n (ops : list Op) :
  let s := run ops (fresh a b i now n) in
  emitted (snd s) = alternating (List.length (emitted (snd s)))
  /\ isOn (fst s) = Nat.odd (List.length (emitted (snd s))).
Proof.
  intros s. apply (run_events ops), fresh_events.
Qed.

(** X9: forcing the output.  [turnOn()] leaves the output on and
    [turnOff()] leaves it off; doing either twice is doing it once (the
    second call changes nothing: no event, no new toggle time, no timer
    restart). *)
Theorem turnOn_turnOff_idempotent (s : State) :
  isOn (fst (turnOn s)) = true
  /\ isOn (fst (turnOff s)) = false
  /\ turnOn (turnOn s) = turnOn s
  /\ turnOff (turnOff s) = turnOff s.
Proof.
  assert (Hon : _on (fst (turnOn s)) = true).
  { destruct s as [d rt]. unfold turnOn. destruct (_on d) eqn:E; cbn [negb].
    - exact E.
    - destruct (reset_events (_setToggledTime (set_on true d, emit "on" rt))) as [_ ->].
      reflexivity. }
  assert (Hoff : _on (fst (turnOff s)) = false).
  { destruct s as [d rt]. unfold turnOff. destruct (_on d) eqn:E.
    - destruct (reset_events (_setToggledTime (set_on false d, emit "off" rt))) as [_ ->].
      reflexivity.
    - exact E. }
  repeat split; try assumption.
  - destruct (turnOn s) as [d' rt'] eqn:E. cbn in Hon. unfold turnOn at 1.
    rewrite Hon. reflexivity.
  - destruct (turnOff s) as [d' rt'] eqn:E. cbn in Hoff. unfold turnOff at 1.
    rewrite Hoff. reflexivity.
Qed.



(** *** Latched devices *)

Lemma forward_fst m (s : LState) :
  _timedDevice (fst (forward m s)) = fst (m (_timedDevice (fst s), snd s))
  /\ snd (forward m s) = snd (m (_timedDevice (fst s), snd s)).
Proof. unfold forward. destruct (m _) as [d rt]. cbn. auto. Qed.

(** No method but [setOffCycleTime], which a latched device does not
    have, changes the off duration. *)
Lemma start_off san s : _offCycleTime (fst (start san s)) = _offCycleTime (fst s).
Proof. destruct s as [d rt]. unfold start. destruct (_started d); reflexivity. Qed.

Lemma stop_off s : _offCycleTime (fst (stop s)) = _offCycleTime (fst s).
Proof.
  destruct s as [d rt]. unfold stop. cbn.
  destruct (_toggleCallbackID d) as [id|]; [destruct (id =? 0)%Z|]; reflexivity.
Qed.

Lemma reset_off s : _offCycleTime (fst (_resetCallbackLoop s)) = _offCycleTime (fst s).
Proof. unfold _resetCallbackLoop. rewrite start_off. apply stop_off. Qed.

Lemma turnOn_off s : _offCycleTime (fst (turnOn s)) = _offCycleTime (fst s).
Proof.
  destruct s as [d rt]. unfold turnOn. destruct (_on d); cbn [negb]; [reflexivity|].
  rewrite reset_off. reflexivity.
Qed.

Lemma turnOff_off s : _offCycleTime (fst (turnOff s)) = _offCycleTime (fst s).
Proof.
  destruct s as [d rt]. unfold turnOff. destruct (_on d); [|reflexivity].
  rewrite reset_off. reflexivity.
Qed.

Lemma fn_off san s : _offCycleTime (fst (fn san s)) = _offCycleTime (fst s).
Proof.
  unfold fn. destruct (truthy san); rewrite ?start_off;
    destruct (_on (fst s)); destruct (Js.gt _ _); rewrite ?turnOn_off, ?turnOff_off;
    reflexivity.
Qed.

Lemma wake_off s : _offCycleTime (fst (wake s)) = _offCycleTime (fst s).
Proof.
  unfold wake. destruct (earliest _) as [tm|]; [|reflexivity].
  rewrite fn_off. reflexivity.
Qed.

Lemma latchedStep_off (s : LState) op :
  _offCycleTime (_timedDevice (fst (latchedStep s op))) =
  _offCycleTime (_timedDevice (fst s)).
Proof.
  destruct op as [san| | | |ms| |now]; cbn [latchedStep];
    unfold latchedStart, latchedStop, latchedTurnOn, latchedTurnOff, latchedSetCycleTime;
    try (match goal with |- context [forward ?m s] =>
           destruct (forward_fst m s) as [-> _] end).
  - apply start_off.
  - apply stop_off.
  - apply turnOn_off.
  - apply turnOff_off.
  - unfold setOnCycleTime. rewrite reset_off. reflexivity.
  - apply wake_off.
  - reflexivity.
Qed.

Lemma latchedRun_off ops : forall s : LState,
  _offCycleTime (_timedDevice (fst (latchedRun ops s))) =
  _offCycleTime (_timedDevice (fst s)).
Proof.
  induction ops as [|op ops IH]; intros s; [reflexivity|].
  cbn. rewrite IH. apply latchedStep_off.
Qed.

(** A step other than [turnOn()] leaves an off latched device off and
    emits nothing. *)
Lemma latchedStep_stays_off (s : LState) op :
  _offCycleTime (_timedDevice (fst s)) = infinity ->
  latchedIsOn (fst s) = false ->
  isTurnOn op = false ->
  latchedIsOn (fst (latchedStep s op)) = false
  /\ emitted (snd (latchedStep s op)) = emitted (snd s).
Proof.
  unfold latchedIsOn, isOn. intros Hinf Hoff Hop.
  destruct op as [san| | | |ms| |now]; try discriminate; cbn [latchedStep];
    unfold latchedStart, latchedStop, latchedTurnOff, latchedSetCycleTime;
    try (match goal with |- context [forward ?m s] =>
           destruct (forward_fst m s) as [-> ->] end).
  - destruct (start_events san (_timedDevice (fst s), snd s)) as [-> ->]. auto.
  - destruct (stop_events (_timedDevice (fst s), snd s)) as [-> ->]. auto.
  - unfold turnOff. cbn [fst snd] in *. rewrite Hoff. auto.
  - unfold setOnCycleTime.
    destruct (reset_events (set_onCycleTime ms (_timedDevice (fst s)), snd s)) as [-> ->].
    auto.
  - unfold wake. cbn [fst snd].
    destruct (earliest (timers (snd s))) as [tm|]; [|auto].
    apply SwitchFacts.latched_never_auto_on; assumption.
  - auto.
Qed.

Lemma latchedRun_stays_off ops : forall s : LState,
  _offCycleTime (_timedDevice (fst s)) = infinity ->
  latchedIsOn (fst s) = false ->
  forallb (fun op => negb (isTurnOn op)) ops = true ->
  latchedIsOn (fst (latchedRun ops s)) = false
  /\ emitted (snd (latchedRun ops s)) = emitted (snd s).
Proof.
  induction ops as [|op ops IH]; intros s Hinf Hoff Hops; [auto|].
  cbn [forallb] in Hops. apply andb_true_iff in Hops. destruct Hops as [Hop Hops].
  apply negb_true_iff in Hop.
  destruct (latchedStep_stays_off s op Hinf Hoff Hop) as [H1 H2].
  cbn [latchedRun fold_left]. rewrite <- H2.
  apply IH; [rewrite latchedStep_off; exact Hinf|exact H1|exact Hops].
Qed.

(** X11: a latched device turns on only by [turnOn()].  Take a latched
    device after any history and suppose it is off; then whatever follows
    (starts, stops, [turnOff()], changes of the cycle time, callbacks
    running, any amount of time) leaves it off and emits no event, as long
    as [turnOn()] is not called.  Its off duration is [+Infinity]
    throughout. *)
Theorem latched_on_only_by_turnOn cycleTime (rt : Runtime)
        (before after : list LatchedOp) :
  let s := latchedRun before (newLatched cycleTime, rt) in
  latchedIsOn (fst s) = false ->
  forallb (fun op => negb (isTurnOn op)) after = true ->
  latchedIsOn (fst (latchedRun after s)) = false
  /\ emitted (snd (latchedRun after s)) = emitted (snd s)
  /\ offCycleTime (_timedDevice (fst (latchedRun after s))) = infinity.
Proof.
  intros s Hoff Hafter.
  assert (Hinf : _offCycleTime (_timedDevice (fst s)) = infinity).
  { unfold s. rewrite latchedRun_off. reflexivity. }
  destruct (latchedRun_stays_off after s Hinf Hoff Hafter) as [H1 H2].
  split; [exact H1|]. split; [exact H2|].
  unfold offCycleTime. rewrite latchedRun_off. exact Hinf.
Qed.

Lemma latched_on_only_by_turnOn_witness :
  let before := [LTurnOn; LClock 1700000000600; LTurnOff] in
  let after := [LStart None; LWake; LSetCycleTime 100; LWake; LClock 1800000000000; LStop] in
  let s := latchedRun before (newLatched 5000, SwitchObs.boot) in
  latchedIsOn (fst (latchedRun after s)) = false
  /\ emitted (snd (latchedRun after s)) = emitted (snd s)
  /\ offCycleTime (_timedDevice (fst (latchedRun after s))) = infinity.
Proof.
  apply (latched_on_only_by_turnOn 5000 SwitchObs.boot
           [LTurnOn; LClock 1700000000600; LTurnOff]); reflexivity.
Defined.

End SwitchRunFacts.

Module BusFacts.
Import Async Max31865 Max31865Obs BusObs Max31865Facts.
Local Open Scope Z_scope.

Lemma word_octets msb lsb :
  octet msb -> octet lsb ->
  Js.bor (Js.shl msb 8) lsb = msb * 256 + lsb.
Proof.
  unfold octet. intros Hm Hl.
  assert (Hs : Js.shl msb 8 = msb * 256).
  { unfold Js.shl, Js.toInt32. change (8 mod 32) with 8.
    rewrite Z.shiftl_mul_pow2 by lia. change (2 ^ 8) with 256.
    rewrite (Z.mod_small (msb + _)) by lia.
    replace (msb + 2147483648 - 2147483648) with msb by lia.
    rewrite Z.mod_small by lia. lia. }
  rewrite Hs.
  assert (Ho : Z.lor (msb * 256) lsb = msb * 256 + lsb).
  { replace (msb * 256) with (Z.shiftl msb 8)
      by (rewrite Z.shiftl_mul_pow2 by lia; reflexivity).
    rewrite <- Z.lxor_lor, <- Z.add_nocarry_lxor; try reflexivity.
    all: apply Z.bits_inj'; intros n Hn; rewrite Z.land_spec, Z.bits_0;
      destruct (Z.ltb_spec n 8);
      [ rewrite Z.shiftl_spec_low by lia; reflexivity
      | rewrite (Z.bits_above_log2 lsb n), andb_false_r; try reflexivity; try lia;
        destruct (Z.eq_dec lsb 0) as [->|]; [cbn; lia|];
        apply Z.log2_lt_pow2; try lia; eapply Z.lt_le_trans with 256; try lia;
        change 256 with (2^8); apply Z.pow_le_mono_r; lia ]. }
  unfold Js.bor, Js.toInt32.
  rewrite (Z.mod_small (msb * 256 + _)) by lia.
  replace (msb * 256 + 2147483648 - 2147483648) with (msb * 256) by lia.
  rewrite (Z.mod_small (lsb + _)) by lia.
  replace (lsb + 2147483648 - 2147483648) with lsb by lia.
  rewrite Ho.
  rewrite (Z.mod_small (msb * 256 + lsb + _)) by lia. lia.
Qed.

(** X1: the two register reads.  [_readUint8] and [_readUint16] each make
    one exchange, the register address followed by one or two zero octets,
    and reject with the bus error if it fails.  The first octet received is
    dropped.  [_readUint8] resolves with the second; [_readUint16] with the
    second and third read big-endian, [msb * 256 + lsb], a number below
    65536 from which both octets can be read back. *)
Theorem register_reads B (this : MAX31865 B) (register : Z) (w : World B) :
  (match _readUint8 this register w with
   | (Resolved v, w') =>
       exists rx, trace w' = trace w ++ [Transfer [register mod 256; 0] 2 (Resolved rx)]
                  /\ v = Js.at_ rx 1
   | (Rejected e, w') =>
       trace w' = trace w ++ [Transfer [register mod 256; 0] 2 (Rejected e)]
   end)
  /\
  (match _readUint16 this register w with
   | (Resolved v, w') =>
       exists rx, trace w' = trace w ++ [Transfer [register mod 256; 0; 0] 3 (Resolved rx)]
                  /\ (octet (Js.at_ rx 1) -> octet (Js.at_ rx 2) ->
                      v = Js.at_ rx 1 * 256 + Js.at_ rx 2
                      /\ 0 <= v < 65536
                      /\ Z.shiftr v 8 = Js.at_ rx 1
                      /\ Z.land v 255 = Js.at_ rx 2)
   | (Rejected e, w') =>
       trace w' = trace w ++ [Transfer [register mod 256; 0; 0] 3 (Rejected e)]
   end).
Proof.
  split.
  - rewrite readUint8_run. destruct (transfer _ _ _) as [[rx|e] b]; [|reflexivity].
    exists rx. split; reflexivity.
  - unfold _readUint16, deviceTransfer. cbn [Js.Buffer_from map bus trace].
    change (0 mod 256) with 0.
    destruct (transfer _ _ _) as [[rx|e] b]; [|reflexivity].
    exists rx. split; [reflexivity|]. intros Hm Hl.
    rewrite word_octets by assumption. unfold octet in *.
    split; [reflexivity|]. split; [lia|]. split.
    + rewrite Z.shiftr_div_pow2 by lia. change (2 ^ 8) with 256.
      rewrite Z.add_comm, Z.div_add by lia. rewrite Z.div_small by lia. lia.
    + change 255 with (Z.ones 8). rewrite Z.land_ones by lia. change (2 ^ 8) with 256.
      rewrite Z.add_comm, Z.mod_add by lia. apply Z.mod_small. lia.
Qed.

(** X2: a configuration toggle on the bus.  Each of [setWireConfig],
    [set50Hz], [clearFaultStatus], [setOneShot], [setAutoConversion] and
    [setBiasVoltage] reads the configuration register and then writes it,
    and does nothing else.  If the read fails nothing is written and the
    call rejects with the read's error; if the write fails the call rejects
    with the write's error; otherwise it resolves. *)
Theorem toggle_on_the_bus B (this : MAX31865 B) (predicate : bool) (bitLocation : Z)
        (w : World B) :
  (match _toggleConfigBit this predicate bitLocation w with
   | (Resolved _, w') =>
       exists rx a,
         trace w' = trace w ++
           [ Transfer [0; 0] 2 (Resolved rx);
             Transfer [128; sentByte (toggled predicate bitLocation (Js.at_ rx 1))] 2
                      (Resolved a) ]
   | (Rejected e, w') =>
       trace w' = trace w ++ [Transfer [0; 0] 2 (Rejected e)]
       \/ exists rx,
           trace w' = trace w ++
             [ Transfer [0; 0] 2 (Resolved rx);
               Transfer [128; sentByte (toggled predicate bitLocation (Js.at_ rx 1))] 2
                        (Rejected e) ]
   end)
  /\ setWireConfig this predicate = _toggleConfigBit this predicate 0x10
  /\ set50Hz this predicate = _toggleConfigBit this predicate 0x01
  /\ clearFaultStatus this = _toggleConfigBit this true 0x02
  /\ setOneShot this = _toggleConfigBit this true 0x20
  /\ setAutoConversion this predicate = _toggleConfigBit this predicate 0x40
  /\ setBiasVoltage this predicate = _toggleConfigBit this predicate 0x80.
Proof.
  split; [|repeat split].
  rewrite toggleConfigBit_run.
  destruct (transfer _ _ _) as [[rx|e] b]; [|left; reflexivity].
  cbn zeta. destruct (transfer _ _ _) as [[a|e] b']; cbn [unitOutcome].
  - exists rx, a. reflexivity.
  - right. exists rx. reflexivity.
Qed.

Lemma isOctet_sentByte data : isOctet (sentByte data) = true.
Proof. destruct (sentByte_bit3 data) as [-> | ->]; reflexivity. Qed.

(** X3: what [getTemperature] puts on the bus.  In every run, whether
    it resolves or rejects, each message is two or three octets long with a
    matching [byteLength] and goes to the configuration register (read at
    0x00, write at 0x80) or to the RTD MSB register (0x01); the only waits
    are of 10 and 65 ms; there are at most nine such events.  No other
    register (fault thresholds, fault status) is ever read or written. *)
Theorem getTemperature_bus_discipline B (this : MAX31865 B) (w : World B) :
  exists events,
    trace (snd (getTemperature this w)) = trace w ++ events
    /\ forallb driverEvent events = true
    /\ (List.length events <= 9)%nat.
Proof.
  unfold getTemperature, readRTD, clearFaultStatus, setBiasVoltage, setOneShot,
    _delay, await, setTimeoutResolve, resolve.
  rewrite toggleConfigBit_run.
  bus_step; [cbn zeta; bus_step|].
  2,3: eexists; split; [cbn [snd trace]; rewrite <- ?app_assoc; reflexivity|];
       cbn; rewrite ?isOctet_sentByte; split; [reflexivity|lia].
  rewrite toggleConfigBit_run.
  bus_step; [cbn zeta; bus_step|].
  2,3: eexists; split; [cbn [snd trace]; rewrite <- ?app_assoc; reflexivity|];
       cbn; rewrite ?isOctet_sentByte; split; [reflexivity|lia].
  cbn [bus trace].
  rewrite toggleConfigBit_run.
  bus_step; [cbn zeta; bus_step|].
  2,3: eexists; split; [cbn [snd trace]; rewrite <- ?app_assoc; reflexivity|];
       cbn; rewrite ?isOctet_sentByte; split; [reflexivity|lia].
  cbn [bus trace].
  unfold _readUint16, deviceTransfer. cbn [bus trace].
  change (Js.Buffer_from _) with [1; 0; 0].
  bus_step.
  all: eexists; split; [cbn [snd trace]; rewrite <- ?app_assoc; reflexivity|];
       cbn; rewrite ?isOctet_sentByte; split; [reflexivity|lia].
Qed.

(** The raw code of a run that resolves, on a bus that hands back octets. *)
Lemma readRTD_raw_range B (this : MAX31865 B) (w w' : World B) (raw : Z) :
  octetBus (_device this) ->
  readRTD this w = (Resolved raw, w') ->
  0 <= raw < 32768.
Proof.
  intros Hbus.
  unfold readRTD, clearFaultStatus, setBiasVoltage, setOneShot, _delay, await,
    setTimeoutResolve, resolve.
  rewrite toggleConfigBit_run. bus_step; [|discriminate]. cbn zeta. bus_step; [|discriminate].
  rewrite toggleConfigBit_run. bus_step; [|discriminate]. cbn zeta. bus_step; [|discriminate].
  cbn [bus trace].
  rewrite toggleConfigBit_run. bus_step; [|discriminate]. cbn zeta. bus_step; [|discriminate].
  cbn [bus trace].
  unfold _readUint16, deviceTransfer. cbn [bus trace].
  change (Js.Buffer_from _) with [1; 0; 0].
  bus_step; [|discriminate].
  intros H. inversion H; subst; clear H.
  match goal with E : transfer _ [1; 0; 0] _ = _ |- _ => apply Hbus in E; rename E into Hoct end.
  assert (Hat : forall i, octet (Js.at_ rx5 i)).
  { intros i. unfold Js.at_. destruct (nth_in_or_default i rx5 0) as [Hin| ->].
    - rewrite Forall_forall in Hoct. apply Hoct, Hin.
    - unfold octet. lia. }
  rewrite raw_code_octets by apply Hat.
  pose proof (Hat 1%nat) as H1. pose proof (Hat 2%nat) as H2. unfold octet in H1, H2.
  rewrite Z.shiftr_div_pow2 by lia. change (2 ^ 1) with 2.
  split; [apply Z.div_pos; lia|apply Z.div_lt_upper_bound; lia].
Qed.

Lemma steadyBus_octets : octetBus steadyBus.
Proof.
  intros send b rx b' H. cbn in H. injection H as <- _.
  repeat constructor; unfold octet; lia.
Qed.

End BusFacts.

Module DecodeRangeFacts.
Import Async Max31865 DecodeObs.
Local Open Scope float_scope.

Lemma allFrom_spec f n : forall a,
  allFrom f a n = true -> forall z, (a <= z < a + Z.of_nat n)%Z -> f z = true.
Proof.
  induction n as [|k IH]; intros a H z Hz; [lia|].
  cbn [allFrom] in H. apply andb_true_iff in H. destruct H as [Hk Hall].
  destruct (Z.eq_dec z a) as [->|Hne]; [exact Hk|].
  apply (IH (a + 1)%Z); [exact Hall|lia].
Qed.

Lemma all_raw_codes type : allFrom (rawCodeOk type) 0 (Z.to_nat 32768) = true.
Proof. destruct type; vm_compute; reflexivity. Qed.

Lemma all_round_trips type : allFrom (roundTripOk type) 0 (Z.to_nat 851) = true.
Proof. destruct type; vm_compute; reflexivity. Qed.


Lemma rawCodeOk_spec type raw :
  (0 <= raw < 32768)%Z -> rawCodeOk type raw = true.
Proof.
  intros H. apply (allFrom_spec _ _ 0%Z (all_raw_codes type)).
  rewrite Z2Nat.id; lia.
Qed.

Lemma decode_two_branch B (spi : SpiDevice B) (R0 Rref Rt : Js.number) :
  temperatureOfResistance (Max31865.new spi R0 Rref) Rt =
  if 0 <=? Max31865Obs.closedFormQuadratic 3.9083e-3 (-5.775e-7) R0 Rt
  then Max31865Obs.closedFormQuadratic 3.9083e-3 (-5.775e-7) R0 Rt
  else Max31865Obs.polynomialBranch (Rt / R0 * 100).
Proof.
  unfold temperatureOfResistance, Max31865Obs.closedFormQuadratic,
    Max31865Obs.polynomialBranch, Max31865Obs.horner5, Js.ge, Js.Math_sqrt.
  cbn [Max31865.new _rtdA _rtdB _rNom _coeffs5thOrder hornerLoop fold_left].
  rewrite FloatFacts.add_opp. reflexivity.
Qed.

(** X4: the decode over the whole range of raw codes.  For a PT100 on
    a 430 ohm reference and a PT1000 on a 4300 ohm reference alike, and for
    every 15-bit raw code: the temperature is a number (never NaN), at least
    -242.02 and below 988.8 degrees; it is strictly below the temperature of
    the next raw code; it is negative exactly for the codes up to 7620; and
    those are the codes the polynomial decodes, the closed form decoding
    all codes from 7621 on. *)
Theorem decode_all_raw_codes B (spi : SpiDevice B) (type : RtDevice.PlatinumResistorType)
        (raw : Z) :
  (0 <= raw < 32768)%Z ->
  let this := RtDevice._device (RtDevice.fromPlatinumResistorType spi type) in
  let R0 := RtDevice.PlatinumNominalResistanceValue type in
  let celsius r := temperatureOfResistance this (resistanceOfRaw this r) in
  is_nan (celsius raw) = false
  /\ (-242.02 <=? celsius raw) = true
  /\ (celsius raw <? 988.8) = true
  /\ ((raw < 32767)%Z -> (celsius raw <? celsius (raw + 1)%Z) = true)
  /\ ((celsius raw <? 0) = true <-> (raw <= 7620)%Z)
  /\ celsius raw =
     if (raw <=? 7620)%Z
     then Max31865Obs.polynomialBranch (resistanceOfRaw this raw / R0 * 100)
     else Max31865Obs.closedFormQuadratic 3.9083e-3 (-5.775e-7) R0
            (resistanceOfRaw this raw).
Proof.
  intros Hraw this R0 celsius.
  pose proof (rawCodeOk_spec type raw Hraw) as H.
  unfold rawCodeOk in H.
  change (celsiusOfRaw type raw) with (celsius raw) in H.
  change (celsiusOfRaw type (raw + 1)) with (celsius (raw + 1)%Z) in H.
  apply andb_true_iff in H. destruct H as [H Hbranch].
  apply andb_true_iff in H. destruct H as [H Hsign].
  apply andb_true_iff in H. destruct H as [H Hnext].
  apply andb_true_iff in H. destruct H as [Hlo Hhi].
  split; [apply (FloatFacts.leb_not_nan _ _ Hlo)|].
  split; [exact Hlo|]. split; [exact Hhi|]. split; [|split].
  - intros Hlt. apply orb_true_iff in Hnext. destruct Hnext as [E|E]; [|exact E].
    apply Z.eqb_eq in E. lia.
  - apply eqb_prop in Hsign. rewrite <- Hsign. apply Z.leb_le.
  - apply eqb_prop in Hbranch. rewrite Hbranch.
    unfold celsius, this, RtDevice.fromPlatinumResistorType, RtDevice.new.
    cbn [RtDevice._device]. rewrite decode_two_branch.
    unfold closedFormOfRaw. fold R0.
    change (resistanceOfRaw
              (RtDevice._device (RtDevice.fromPlatinumResistorType SimChip.spi type)) raw)
      with (resistanceOfRaw (Max31865.new spi R0 (RtDevice.PlatinumRefResistorValue type)) raw).
    destruct (0 <=? _); reflexivity.
Qed.

Lemma decode_all_raw_codes_witness :
  let this := RtDevice._device (RtDevice.fromPlatinumResistorType SimChip.spi RtDevice.PT1000) in
  let R0 := RtDevice.PlatinumNominalResistanceValue RtDevice.PT1000 in
  let celsius r := temperatureOfResistance this (resistanceOfRaw this r) in
  let raw := 12345%Z in
  is_nan (celsius raw) = false
  /\ (-242.02 <=? celsius raw) = true
  /\ (celsius raw <? 988.8) = true
  /\ ((raw < 32767)%Z -> (celsius raw <? celsius (raw + 1)%Z) = true)
  /\ ((celsius raw <? 0) = true <-> (raw <= 7620)%Z)
  /\ celsius raw =
     if (raw <=? 7620)%Z
     then Max31865Obs.polynomialBranch (resistanceOfRaw this raw / R0 * 100)
     else Max31865Obs.closedFormQuadratic 3.9083e-3 (-5.775e-7) R0
            (resistanceOfRaw this raw).
Proof.
  apply (decode_all_raw_codes _ SimChip.spi RtDevice.PT1000 12345). lia.
Defined.

(** X5: reading a temperature end to end.  On a bus that hands back
    octets, for either sensor type: if [getTempCelsius] resolves, its value
    is the decode of a 15-bit raw code, hence a number from -242.02 up to
    988.8 degrees, never NaN and never infinite. *)
Theorem getTempCelsius_in_range B (spi : SpiDevice B)
        (type : RtDevice.PlatinumResistorType) (w w' : World B) (t : Js.number) :
  BusObs.octetBus spi ->
  RtDevice.getTempCelsius (RtDevice.fromPlatinumResistorType spi type) w
  = (Resolved t, w') ->
  (exists raw, (0 <= raw < 32768)%Z /\ t = celsiusOfRaw type raw)
  /\ is_nan t = false
  /\ (-242.02 <=? t) = true
  /\ (t <? 988.8) = true.
Proof.
  intros Hbus. unfold RtDevice.getTempCelsius, getTemperature, await, resolve.
  destruct (readRTD _ w) as [[raw|e] w1] eqn:E; [|discriminate].
  intros H. injection H as Ht _.
  assert (Ht' : t = celsiusOfRaw type raw) by (rewrite <- Ht; reflexivity).
  clear Ht. subst t.
  assert (Hraw : (0 <= raw < 32768)%Z).
  { apply (BusFacts.readRTD_raw_range _
             (RtDevice._device (RtDevice.fromPlatinumResistorType spi type)) _ _ _ Hbus E). }
  pose proof (rawCodeOk_spec type raw Hraw) as H.
  unfold rawCodeOk in H.
  apply andb_true_iff in H. destruct H as [H _].
  apply andb_true_iff in H. destruct H as [H _].
  apply andb_true_iff in H. destruct H as [H _].
  apply andb_true_iff in H. destruct H as [Hlo Hhi].
  split; [exists raw; split; [exact Hraw|reflexivity]|].
  split; [apply (FloatFacts.leb_not_nan _ _ Hlo)|]. split; assumption.
Qed.

Lemma getTempCelsius_in_range_witness :
  (exists raw, (0 <= raw < 32768)%Z /\ (-49.991400496397631) = celsiusOfRaw RtDevice.PT100 raw)
  /\ is_nan (-49.991400496397631) = false
  /\ (-242.02 <=? -49.991400496397631) = true
  /\ (-49.991400496397631 <? 988.8) = true.
Proof.
  apply (getTempCelsius_in_range unit BusObs.steadyBus RtDevice.PT100
           (mkWorld tt []) (snd (RtDevice.getTempCelsius
              (RtDevice.fromPlatinumResistorType BusObs.steadyBus RtDevice.PT100)
              (mkWorld tt [])))).
  - exact BusFacts.steadyBus_octets.
  - vm_compute. reflexivity.
Defined.

Lemma roundTripOk_spec type T :
  (0 <= T <= 850)%Z -> roundTripOk type T = true.
Proof.
  intros H. apply (allFrom_spec _ _ 0%Z (all_round_trips type)).
  rewrite Z2Nat.id; lia.
Qed.

(** X6: round trip above zero.  For either sensor type and every whole
    temperature T from 0 to 850 degrees, decoding the resistance
    [R0 * (1 + a*T + b*T^2)] gives T back to within 1e-9 degrees. *)
Theorem decode_inverts_quadratic B (spi : SpiDevice B)
        (type : RtDevice.PlatinumResistorType) (T : Z) :
  (0 <= T <= 850)%Z ->
  let this := RtDevice._device (RtDevice.fromPlatinumResistorType spi type) in
  let R0 := RtDevice.PlatinumNominalResistanceValue type in
  (abs (temperatureOfResistance this (quadraticResistance R0 (Js.ofInt T)) - Js.ofInt T)
   <? 1e-9) = true.
Proof.
  intros H this R0. exact (roundTripOk_spec type T H).
Qed.

Lemma decode_inverts_quadratic_witness :
  let this := RtDevice._device (RtDevice.fromPlatinumResistorType SimChip.spi RtDevice.PT100) in
  let R0 := RtDevice.PlatinumNominalResistanceValue RtDevice.PT100 in
  (abs (temperatureOfResistance this (quadraticResistance R0 (Js.ofInt 225)) - Js.ofInt 225)
   <? 1e-9) = true.
Proof.
  apply (decode_inverts_quadratic _ SimChip.spi RtDevice.PT100 225). lia.
Defined.

End DecodeRangeFacts.

Module FloatClassFacts.
Import FloatClassObs.
Local Open Scope float_scope.

Lemma is_finite_false x : nonFinite (Prim2SF x) -> is_finite x = false.
Proof.
  unfold is_finite, is_nan, is_infinity.
  rewrite !eqb_spec, abs_spec. change (Prim2SF infinity) with (S754_infinity false).
  destruct (Prim2SF x) as [?|[]| |? ? ?]; cbn; intros H; try contradiction; reflexivity.
Qed.

Lemma is_finite_true x :
  is_finite x = true ->
  match Prim2SF x with S754_zero _ | S754_finite _ _ _ => True | _ => False end.
Proof.
  unfold is_finite, is_nan, is_infinity.
  rewrite !eqb_spec, abs_spec. change (Prim2SF infinity) with (S754_infinity false).
  destruct (Prim2SF x) as [?|[]| |? ? ?]; cbn; intros H; try discriminate; exact I.
Qed.

Lemma is_zero_spec x : is_zero x = true -> exists s, Prim2SF x = S754_zero s.
Proof.
  unfold is_zero. rewrite eqb_spec. change (Prim2SF zero) with (S754_zero false).
  destruct (Prim2SF x) as [s|s| |s ? ?]; cbn; intros H; try discriminate.
  - exists s. reflexivity.
  - destruct s; discriminate.
  - destruct s; discriminate.
Qed.

Lemma div_by_zero x z : is_zero z = true -> nonFinite (Prim2SF (x / z)).
Proof.
  intros H. destruct (is_zero_spec z H) as [s E].
  rewrite div_spec, E. destruct (Prim2SF x); exact I.
Qed.

Lemma mul_nonFinite k y : nonFinite (Prim2SF y) -> nonFinite (Prim2SF (k * y)).
Proof.
  rewrite mul_spec. destruct (Prim2SF y), (Prim2SF k); cbn; intros H;
    try contradiction; exact I.
Qed.

Lemma add_nonFinite x y : nonFinite (Prim2SF y) -> nonFinite (Prim2SF (x + y)).
Proof.
  rewrite add_spec. destruct (Prim2SF y) as [?|sy| |? ? ?], (Prim2SF x) as [?|sx| |? ? ?];
    cbn; intros H; try contradiction; try exact I.
  destruct sx, sy; exact I.
Qed.

(** A finite number minus itself is zero. *)
Lemma sub_diag_zero x : is_finite x = true -> is_zero (x - x) = true.
Proof.
  intros H. apply is_finite_true in H.
  unfold is_zero. rewrite eqb_spec, sub_spec.
  change (Prim2SF zero) with (S754_zero false).
  destruct (Prim2SF x) as [s|s| |s m e]; try contradiction.
  - destruct s; reflexivity.
  - cbn. rewrite Z.sub_diag. reflexivity.
Qed.

End FloatClassFacts.

Module PidEdgeFacts.
Import Pid FloatFacts FloatClassObs FloatClassFacts.
Local Open Scope float_scope.

(** X12: inside the bound the integrator just accumulates.  When the sum
    [integratorSum + error * dt] lies strictly between [-maxIntegrator] and
    [maxIntegrator], [getControllerResponse] stores that very sum and the
    integral term is [Ki] times it; the last sample time becomes [now] and
    setpoint, gains and bound are as before. *)
Theorem integrator_accumulates (c : PIDController) (now T : Js.number) :
  let v := _sumT c + (T - _tempSetPoint c) * (now - _lastTime c) in
  (- _maxIntegrator c <? v) = true ->
  (v <? _maxIntegrator c) = true ->
  let r := getControllerResponse now T c in
  snd r = mkPID (_Kp c) (_Ki c) (_Kd c) now v (_tempSetPoint c) (_maxIntegrator c)
  /\ I (snd (fst r)) = _Ki c * v.
Proof.
  intros v Hlo Hhi r.
  assert (E : clamp v (- _maxIntegrator c) (_maxIntegrator c) = v).
  { destruct (ltb_not_nan _ _ Hlo) as [Hm Hv]. destruct (ltb_not_nan _ _ Hhi) as [_ Hm'].
    unfold clamp, Js.Math_max. rewrite Hv, Hm, (ltb_asym _ _ Hlo), Hlo. cbn [orb].
    unfold Js.Math_min. rewrite Hv, Hm', Hhi. reflexivity. }
  unfold r, getControllerResponse, _calculateIntegratorResponse. cbn.
  fold v. rewrite E. split; reflexivity.
Qed.

Lemma integrator_accumulates_witness :
  let c := snd (getControllerResponse 1700000000000 90
                  (setDesiredTemp 100 (new 50 100 10))) in
  let now := 1700000000100 in
  let T := 102 in
  let v := _sumT c + (T - _tempSetPoint c) * (now - _lastTime c) in
  let r := getControllerResponse now T c in
  snd r = mkPID (_Kp c) (_Ki c) (_Kd c) now v (_tempSetPoint c) (_maxIntegrator c)
  /\ I (snd (fst r)) = _Ki c * v.
Proof.
  apply (integrator_accumulates
           (snd (getControllerResponse 1700000000000 90
                   (setDesiredTemp 100 (new 50 100 10))))
           1700000000100 102); reflexivity.
Defined.

(** X13: two samples in the same millisecond.  When [Date.now()] is the
    time of the last sample, [dt] is zero and the derivative term divides
    by it: the derivative term and the response are then never finite
    numbers (they are [Infinity], [-Infinity] or NaN), whatever the
    temperature, the setpoint and the gains.  In particular the second of
    two calls made at the same clock reading returns such a value. *)
Theorem same_millisecond_response (c : PIDController) (now T1 T2 : Js.number) :
  is_finite now = true ->
  (forall T, is_zero (now - _lastTime c) = true ->
             is_finite (D (snd (fst (getControllerResponse now T c)))) = false
             /\ is_finite (fst (fst (getControllerResponse now T c))) = false)
  /\ (let c1 := snd (getControllerResponse now T1 c) in
      _lastTime c1 = now
      /\ is_finite (D (snd (fst (getControllerResponse now T2 c1)))) = false
      /\ is_finite (fst (fst (getControllerResponse now T2 c1))) = false).
Proof.
  intros Hnow.
  assert (G : forall c T, is_zero (now - _lastTime c) = true ->
             is_finite (D (snd (fst (getControllerResponse now T c)))) = false
             /\ is_finite (fst (fst (getControllerResponse now T c))) = false).
  { intros c0 T Hz.
    unfold getControllerResponse, _calculateIntegratorResponse,
      _calculateDerivativeResponse. cbn.
    split; apply is_finite_false.
    - apply mul_nonFinite, div_by_zero, Hz.
    - apply add_nonFinite, mul_nonFinite, div_by_zero, Hz. }
  split; [apply G|].
  cbv zeta. split; [reflexivity|].
  apply G. apply sub_diag_zero, Hnow.
Qed.

Lemma same_millisecond_response_witness :
  let c := setDesiredTemp 100 (new 50 100 10) in
  let now := 1700000000000 in
  (forall T, is_zero (now - _lastTime c) = true ->
             is_finite (D (snd (fst (getControllerResponse now T c)))) = false
             /\ is_finite (fst (fst (getControllerResponse now T c))) = false)
  /\ (let c1 := snd (getControllerResponse now 90 c) in
      _lastTime c1 = now
      /\ is_finite (D (snd (fst (getControllerResponse now 95 c1)))) = false
      /\ is_finite (fst (fst (getControllerResponse now 95 c1))) = false).
Proof.
  apply (same_millisecond_response (setDesiredTemp 100 (new 50 100 10))
           1700000000000 90 95). reflexivity.
Defined.

End PidEdgeFacts.

(** *** Time passing, as steps

    [runUntil] does nothing but run pending callbacks and then set the
    clock. *)

Module SwitchRunLink.
Import Switch SwitchRun.
Local Open Scope float_scope.

Lemma fireNext_wake t s s' : fireNext t s = Some s' -> s' = wake s.
Proof.
  unfold fireNext, wake. destruct (earliest _) as [tm|]; [|discriminate].
  destruct (due tm <=? t); [|discriminate]. intros H. injection H as <-. reflexivity.
Qed.

Lemma runUntil_as_run fuel : forall t s s',
  runUntil fuel t s = Some s' ->
  exists k, s' = run (repeat OpWake k ++ [OpClock t]) s.
Proof.
  induction fuel as [|fuel IH]; intros t s s' H; cbn [runUntil] in H.
  - destruct (fireNext t s); [discriminate|]. injection H as <-. exists 0%nat. reflexivity.
  - destruct (fireNext t s) as [s1|] eqn:E.
    + destruct (IH _ _ _ H) as [k ->]. exists (S k).
      cbn [repeat app run fold_left step]. rewrite (fireNext_wake _ _ _ E). reflexivity.
    + injection H as <-. exists 0%nat. reflexivity.
Qed.

End SwitchRunLink.

(** ** The configuration steps of [readRTD] *)

Module ReadRtdFacts.
Import Async Max31865 Max31865Obs ReadRtdObs Max31865Facts.
Local Open Scope Z_scope.

(** [ToInt32] keeps the low 32 bits. *)
Lemma toInt32_testbit (z n : Z) :
  0 <= n < 32 -> Z.testbit (Js.toInt32 z) n = Z.testbit z n.
Proof.
  intros Hn. unfold Js.toInt32.
  rewrite Z.mod_eq by lia.
  replace (z + 2147483648 - 4294967296 * ((z + 2147483648) / 4294967296) - 2147483648)
    with (z + (- ((z + 2147483648) / 4294967296)) * 2 ^ 32) by (change (2 ^ 32) with 4294967296; lia).
  rewrite <- (Z.mod_pow2_bits_low (z + _) 32 n) by lia.
  rewrite Z.mod_add by (change (2 ^ 32) with 4294967296; lia).
  apply Z.mod_pow2_bits_low. lia.
Qed.

(** What [_writeUint8] lets through of a byte is its bit 3. *)
Lemma sentByte_value (data : Z) :
  sentByte data = if Z.testbit data 3 then 8 else 0.
Proof.
  unfold sentByte, Js.band.
  assert (H : Z.land (Js.toInt32 data) (2 ^ 3) =
              if Z.testbit data 3 then 2 ^ 3 else 0).
  { apply Z.bits_inj'. intros n Hn. rewrite Z.land_spec, Z.pow2_bits_eqb by lia.
    destruct (Z.eqb_spec 3 n) as [<-|Hne].
    - rewrite toInt32_testbit by lia.
      destruct (Z.testbit data 3); [rewrite Z.pow2_bits_true by lia|rewrite Z.bits_0];
        reflexivity.
    - rewrite andb_false_r.
      destruct (Z.testbit data 3); [rewrite Z.pow2_bits_false by lia|rewrite Z.bits_0];
        reflexivity. }
  change (Js.toInt32 8) with (2 ^ 3). rewrite H.
  destruct (Z.testbit data 3); reflexivity.
Qed.

(** Setting a bit other than bit 3 does not change what is sent. *)
Lemma sentByte_toggled (bitLocation readConfig : Z) :
  Z.testbit bitLocation 3 = false ->
  sentByte (toggled true bitLocation readConfig) = sentByte (toggled true 0x00 readConfig).
Proof.
  intros Hb. rewrite !sentByte_value. unfold toggled, Js.bor.
  rewrite !toInt32_testbit, !Z.lor_spec, !toInt32_testbit by lia.
  rewrite Hb. reflexivity.
Qed.

Lemma toggle_sets_nothing B (this : MAX31865 B) (bitLocation : Z) (w : World B) :
  Z.testbit bitLocation 3 = false ->
  _toggleConfigBit this true bitLocation w = _toggleConfigBit this true 0x00 w.
Proof.
  intros Hb. rewrite !toggleConfigBit_run.
  destruct (transfer _ _ _) as [[rx|e] b]; [|reflexivity].
  cbn zeta. rewrite (sentByte_toggled bitLocation) by exact Hb. reflexivity.
Qed.

(** C6 (the code at a failing input): [readRTD] on a chip whose
    configuration register reads 0x00 and whose RTD register holds 0x0002.
    The three steps compute the configuration bytes 0x02 (fault-status
    clear), 0x80 (bias) and 0x20 (one-shot), but each write puts 0x00 on the
    bus after the address 0x80: the chip's configuration register is 0x00
    throughout and at the end, so no fault status is cleared, no bias is
    enabled and no conversion is triggered.  The waits of 10 and 65 ms and
    the read of the RTD register happen in their places and the raw code is
    0x0002 shifted right by one.  On every bus, [readRTD] does exactly what
    it would do if its three steps set no bit at all. *)
Theorem readRTD_config_steps_lost :
  (let r := readRTD SimChip.pt100 (SimChip.boot idleChip) in
   toggled true 0x02 0x00 = 0x02
   /\ toggled true 0x80 0x00 = 0x80
   /\ toggled true 0x20 0x00 = 0x20
   /\ trace (snd r) =
      [ Transfer [0x00; 0x00] 2 (Resolved [0; 0x00]);
        Transfer [0x80; 0x00] 2 (Resolved [0; 0]);
        Transfer [0x00; 0x00] 2 (Resolved [0; 0x00]);
        Transfer [0x80; 0x00] 2 (Resolved [0; 0]);
        Delay 10;
        Transfer [0x00; 0x00] 2 (Resolved [0; 0x00]);
        Transfer [0x80; 0x00] 2 (Resolved [0; 0]);
        Delay 65;
        Transfer [0x01; 0x00; 0x00] 3 (Resolved [0; 0x00; 0x02]) ]
   /\ SimChip.config (bus (snd r)) = 0x00
   /\ fst r = Resolved 1)
  /\ (forall B (this : MAX31865 B) (w : World B),
        readRTD this w = readRTDSettingNothing this w).
Proof.
  split.
  - cbv zeta. repeat split; reflexivity.
  - intros B this w.
    unfold readRTD, readRTDSettingNothing, clearFaultStatus, setBiasVoltage,
      setOneShot, await.
    rewrite (toggle_sets_nothing _ this 0x02 w) by reflexivity.
    destruct (_toggleConfigBit this true 0 w) as [[u1|e1] w1]; [|reflexivity].
    rewrite (toggle_sets_nothing _ this 0x80 w1) by reflexivity.
    destruct (_toggleConfigBit this true 0 w1) as [[u2|e2] w2]; [|reflexivity].
    destruct (_delay 10 w2) as [[u3|e3] w3]; [|reflexivity].
    rewrite (toggle_sets_nothing _ this 0x20 w3) by reflexivity.
    reflexivity.
Qed.

End ReadRtdFacts.
